(** * The request lifecycle of the HTTP server (src/server.js)

    A shallow embedding of [_send] and of the per-request handler that
    [serve] passes to [createServer]: route selection, the settlement
    callbacks, the preprocessor fan-out, handler classification and the
    response sender.

    JavaScript values are an inductive type, exceptions are an error monad,
    the mutable per-request variables ([settled], the promise, the abort
    signals) are one record threaded through the code, and the transport
    ([ServerResponse]) is a record that logs every call made on it.

    What runs while the handler is suspended at an [await] (hooks still
    running, the socket closing, the body-read timer) is given as a list of
    [event]s at each [await]; statements quantify over these lists.  Every
    promise handed to the code is taken to settle.  The platform classes
    the code calls ([Response], [Headers], [ReadableStream] and its reader,
    [AbortSignal], [Promise]) follow the Fetch, Streams and DOM standards
    for the calls the code makes; the modules of the repository that are
    not among the sources are parameters. *)

From Stdlib Require Import ZArith List String Ascii Bool Lia DecimalString.
Import ListNotations.
Local Open Scope string_scope.
Local Open Scope list_scope.
Local Open Scope Z_scope.

(** ** Streams, headers and responses *)

(** A [TransformStream] (or any readable/writable pair): [ts_id] is the
    identity of the object, [ts_run] what its readable side emits for the
    chunks written to its writable side. *)
Record Transform := {
  ts_id : nat;
  ts_run : list string -> list string
}.

(** The three [AbortSignal] objects of a request: [controller.signal],
    the [signal] option of [serve], and [AbortSignal.any] of the two. *)
Inductive signal_id := ControllerSignal | PassedSignal | AnySignal.

(** A [ReadableStream]: a source with its queued chunks and its [locked]
    flag, or the readable side returned by [pipeThrough(pipe, { signal })]. *)
Inductive ReadableStream :=
| Source (chunks : list string) (is_locked : bool)
| PipeThrough (src : ReadableStream) (pipe : Transform) (signal : signal_id).

Definition locked (s : ReadableStream) : bool :=
  match s with
  | Source _ l => l
  | PipeThrough _ _ _ => false
  end.

(** The chunks a reader gets from the stream until [done]. *)
Fixpoint read_all (s : ReadableStream) : list string :=
  match s with
  | Source chunks _ => chunks
  | PipeThrough src pipe _ => ts_run pipe (read_all src)
  end.

(** The transforms a stream has been piped through, innermost first. *)
Fixpoint pipes (s : ReadableStream) : list nat :=
  match s with
  | Source _ _ => []
  | PipeThrough src pipe _ => pipes src ++ [ts_id pipe]
  end.

Definition lower_ascii (c : ascii) : ascii :=
  let n := nat_of_ascii c in
  if (65 <=? n)%nat && (n <=? 90)%nat then ascii_of_nat (n + 32) else c.

Fixpoint lower (s : string) : string :=
  match s with
  | EmptyString => EmptyString
  | String c r => String (lower_ascii c) (lower r)
  end.

(** A [Headers] object, as the list of entries its iteration yields:
    names in lower case and sorted, the values of one name combined, and
    each [set-cookie] value an entry of its own. *)
Definition Headers := list (string * string).

Definition Headers_has (h : Headers) (name : string) : bool :=
  existsb (fun kv => String.eqb (fst kv) (lower name)) h.

Definition Headers_getSetCookie (h : Headers) : list string :=
  map snd (filter (fun kv => String.eqb (fst kv) "set-cookie") h).

(** [headers.append(name, value)], for a name in lower case. *)
Fixpoint Headers_append (name value : string) (h : Headers) : Headers :=
  match h with
  | [] => [(name, value)]
  | (k, v) :: rest =>
      if String.eqb k name
      then
        if String.eqb name "set-cookie"
        then (k, v) :: Headers_append name value rest
        else (k, (v ++ ", " ++ value)%string) :: rest
      else if String.ltb name k then (name, value) :: h
      else (k, v) :: Headers_append name value rest
  end.

Record Response := {
  status : Z;
  statusText : string;
  headers : Headers;
  body : option ReadableStream
}.

Inductive BodyInit :=
| BodyNull
| BodyString (s : string)
| BodyStream (s : ReadableStream).

Inductive HeadersInit :=
| HeaderEntries (l : list (string * string))
| HeaderRecord (l : list (string * string)).

(** A plain object as [_send] destructures it:
    [{ headers, body, status, statusText }], each property possibly absent;
    a [status] that is present is an integer. *)
Record ResponseLike := {
  o_headers : option HeadersInit;
  o_body : option BodyInit;
  o_status : option Z;
  o_statusText : option string
}.

Definition no_properties : ResponseLike :=
  {| o_headers := None; o_body := None; o_status := None; o_statusText := None |}.

(** ** JavaScript values *)

#[warnings="-register-all"]
Inductive jsval :=
| VUndefined
| VNull
| VBoolean (b : bool)
| VNumber (n : Z)
| VString (s : string)
| VFunction (source : string)
| VURL (href : string)
| VError (name message : string) (cause : jsval)
| VHTTPError (message : string) (code : Z) (cause : jsval)
| VAggregateError (errors : list jsval)
| VResponse (r : Response)
| VReadableStream (s : ReadableStream)
| VTransformStream (t : Transform)
| VCompressionStream (t : Transform)
| VDuplex (readable_is_stream writable_is_stream : bool) (t : Transform)
| VObject (o : ResponseLike).

Definition TypeError (message : string) : jsval := VError "TypeError" message VUndefined.
Definition RangeError (message : string) : jsval := VError "RangeError" message VUndefined.

(** [v instanceof Error]; [HTTPError] and [AggregateError] are errors. *)
Definition instanceof_Error (v : jsval) : bool :=
  match v with
  | VError _ _ _ | VHTTPError _ _ _ | VAggregateError _ => true
  | _ => false
  end.

Definition instanceof_HTTPError (v : jsval) : bool :=
  match v with
  | VHTTPError _ _ _ => true
  | _ => false
  end.

(** [typeof v === 'object'], true of [null]. *)
Definition typeof_object (v : jsval) : bool :=
  match v with
  | VUndefined | VBoolean _ | VNumber _ | VString _ | VFunction _ => false
  | _ => true
  end.

Definition decimal (n : Z) : string :=
  match n with
  | Z0 => "0"
  | Zpos p => DecimalString.NilEmpty.string_of_uint (Pos.to_uint p)
  | Zneg p => "-" ++ DecimalString.NilEmpty.string_of_uint (Pos.to_uint p)
  end.

(** [String(v)], as [new Error(v)] and template literals compute it. *)
Definition ToString (v : jsval) : string :=
  match v with
  | VUndefined => "undefined"
  | VNull => "null"
  | VBoolean b => if b then "true" else "false"
  | VNumber n => decimal n
  | VString s => s
  | VFunction source => source
  | VURL href => href
  | VError name message _ => if String.eqb message "" then name else name ++ ": " ++ message
  | VHTTPError message _ _ => if String.eqb message "" then "Error" else "Error: " ++ message
  | VAggregateError _ => "AggregateError"
  | VResponse _ => "[object Response]"
  | VReadableStream _ => "[object ReadableStream]"
  | VTransformStream _ => "[object TransformStream]"
  | VCompressionStream _ => "[object CompressionStream]"
  | VDuplex _ _ _ | VObject _ => "[object Object]"
  end.

Definition message_of (v : jsval) : string :=
  match v with
  | VError _ message _ | VHTTPError message _ _ => message
  | _ => ""
  end.

(** ** Exceptions *)

Inductive completion (A : Type) :=
| Normal (a : A)
| Throw (e : jsval).
Arguments Normal {A} a.
Arguments Throw {A} e.

Definition bind {A B : Type} (c : completion A) (k : A -> completion B) : completion B :=
  match c with
  | Normal a => k a
  | Throw e => Throw e
  end.

Notation "x <- c ;; k" := (bind c (fun x => k))
  (at level 61, c at next level, right associativity).

(** ** The per-request variables

    [settled] is the flag of lines 204-227, [promise] the promise of
    [Promise.withResolvers()], and the three signal fields hold the abort
    reason of each [AbortSignal] once it has aborted. *)

Inductive promise_state :=
| Pending
| Fulfilled (value : jsval)
| Rejected (reason : jsval).

Record request_state := {
  settled : bool;
  promise : promise_state;
  controller_signal : option jsval;
  passed_signal : option jsval;
  any_signal : option jsval
}.

(** [resolveRequest] and [rejectRequest], the resolving functions of the
    promise: they act on a pending promise only.  [Fulfilled v] records
    that the promise was resolved with [v]; when [v] is itself a promise,
    following it is the platform's business. *)
Definition resolveRequest (result : jsval) (p : promise_state) : promise_state :=
  match p with
  | Pending => Fulfilled result
  | _ => p
  end.

Definition rejectRequest (reason : jsval) (p : promise_state) : promise_state :=
  match p with
  | Pending => Rejected reason
  | _ => p
  end.

(** [const resolve = result => { if (! settled) { resolveRequest(result); settled = true; } }] *)
Definition resolve (result : jsval) (st : request_state) : request_state :=
  if negb (settled st)
  then {| settled := true;
          promise := resolveRequest result (promise st);
          controller_signal := controller_signal st;
          passed_signal := passed_signal st;
          any_signal := any_signal st |}
  else st.

(** [const reject = reason => { if (! settled) { rejectRequest(reason); settled = true; } }] *)
Definition reject (reason : jsval) (st : request_state) : request_state :=
  if negb (settled st)
  then {| settled := true;
          promise := rejectRequest reason (promise st);
          controller_signal := controller_signal st;
          passed_signal := passed_signal st;
          any_signal := any_signal st |}
  else st.

(** An [AbortSignal] aborts once: a later [abort] leaves its reason. *)
Definition abort_once (reason : jsval) (s : option jsval) : option jsval :=
  match s with
  | None => Some reason
  | Some _ => s
  end.

(** [controller.abort(reason)]; [AbortSignal.any] follows. *)
Definition controller_abort (reason : jsval) (st : request_state) : request_state :=
  {| settled := settled st;
     promise := promise st;
     controller_signal := abort_once reason (controller_signal st);
     passed_signal := passed_signal st;
     any_signal := abort_once reason (any_signal st) |}.

(** The signal passed to [serve] aborts; [AbortSignal.any] follows. *)
Definition passed_abort (reason : jsval) (st : request_state) : request_state :=
  {| settled := settled st;
     promise := promise st;
     controller_signal := controller_signal st;
     passed_signal := abort_once reason (passed_signal st);
     any_signal := abort_once reason (any_signal st) |}.

(** What code holding the context, the socket, the timer or the passed
    signal can do to the request while the handler is suspended. *)
Inductive event :=
| CallResolve (result : jsval)
| CallReject (reason : jsval)
| ControllerAbort (reason : jsval)
| PassedAbort (reason : jsval).

Definition run_event (st : request_state) (e : event) : request_state :=
  match e with
  | CallResolve v => resolve v st
  | CallReject v => reject v st
  | ControllerAbort r => controller_abort r st
  | PassedAbort r => passed_abort r st
  end.

Definition run_events (es : list event) (st : request_state) : request_state :=
  fold_left run_event es st.

(** The state of an [AbortSignal] object: [None] while [aborted] is false,
    [Some reason] afterwards. *)
Definition signal_state (st : request_state) (s : signal_id) : option jsval :=
  match s with
  | ControllerSignal => controller_signal st
  | PassedSignal => passed_signal st
  | AnySignal => any_signal st
  end.

Definition aborted (st : request_state) (s : signal_id) : bool :=
  match signal_state st s with
  | Some _ => true
  | None => false
  end.

(** The state when the request arrives: nothing settled, the controller
    fresh, the passed signal as it is then. *)
Definition initial_state (passed : option jsval) : request_state :=
  {| settled := false;
     promise := Pending;
     controller_signal := None;
     passed_signal := passed;
     any_signal := passed |}.

(** ** The transport *)

(** What [write] was given: a body chunk, or
    [JSON.stringify(new HTTPError(message, { status, cause }))]. *)
Inductive written :=
| Chunk (s : string)
| ErrorJSON (error : jsval).

(** A [ServerResponse]: its two flags and a log of the calls made on it. *)
Record ServerResponse := {
  headersSent : bool;
  writable : bool;
  header_calls : list (string * string);
  head_calls : list (Z * option string);
  write_calls : list written;
  end_calls : nat
}.

Definition setHeader (name value : string) (m : ServerResponse) : ServerResponse :=
  {| headersSent := headersSent m;
     writable := writable m;
     header_calls := header_calls m ++ [(name, value)];
     head_calls := head_calls m;
     write_calls := write_calls m;
     end_calls := end_calls m |}.

(** [appendHeader] is logged like [setHeader]: the log keeps every call. *)
Definition appendHeader (name value : string) (m : ServerResponse) : ServerResponse :=
  setHeader name value m.

Definition writeHead (code : Z) (reason : option string) (m : ServerResponse) : ServerResponse :=
  {| headersSent := true;
     writable := writable m;
     header_calls := header_calls m;
     head_calls := head_calls m ++ [(code, reason)];
     write_calls := write_calls m;
     end_calls := end_calls m |}.

Definition write (w : written) (m : ServerResponse) : ServerResponse :=
  {| headersSent := headersSent m;
     writable := writable m;
     header_calls := header_calls m;
     head_calls := head_calls m;
     write_calls := write_calls m ++ [w];
     end_calls := end_calls m |}.

(** [end()]: the message is finished and no longer writable. *)
Definition end_ (m : ServerResponse) : ServerResponse :=
  {| headersSent := headersSent m;
     writable := false;
     header_calls := header_calls m;
     head_calls := head_calls m;
     write_calls := write_calls m;
     end_calls := S (end_calls m) |}.

(** A message nothing has been written to. *)
Definition fresh_message : ServerResponse :=
  {| headersSent := false; writable := true; header_calls := [];
     head_calls := []; write_calls := []; end_calls := 0 |}.

(** ** Objects and the order of their keys *)

(** An object with string keys is given by its property definitions in
    the order they are made (the order of an object literal, or of the
    pairs handed to [Object.fromEntries]).  Defining a key again replaces
    the value and leaves the key where it was first created. *)
Fixpoint put_entry {A : Type} (k : string) (v : A) (l : list (string * A))
    : list (string * A) :=
  match l with
  | [] => [(k, v)]
  | (k', v') :: r => if String.eqb k' k then (k', v) :: r else (k', v') :: put_entry k v r
  end.

Definition own_properties {A : Type} (definitions : list (string * A)) : list (string * A) :=
  fold_left (fun acc kv => put_entry (fst kv) (snd kv) acc) definitions [].

(** [Object.fromEntries] *)
Definition Object_fromEntries (l : list (string * string)) : list (string * string) :=
  own_properties l.

Definition code_of (c : ascii) : Z := Z.of_nat (nat_of_ascii c).

Fixpoint digits_value (s : string) (acc : Z) : option Z :=
  match s with
  | EmptyString => Some acc
  | String c rest =>
      if (48 <=? code_of c) && (code_of c <=? 57)
      then digits_value rest (10 * acc + (code_of c - 48))
      else None
  end.

(** A key that is an array index: the canonical decimal string of an
    integer from 0 to 2^32 - 2 (["8"], but neither ["08"] nor ["/8"]). *)
Definition array_index (key : string) : option Z :=
  match digits_value key 0 with
  | Some n => if String.eqb (decimal n) key && (n <? 4294967295) then Some n else None
  | None => None
  end.

Fixpoint insert_by_index {A : Type} (i : Z) (kv : string * A)
    (l : list (Z * (string * A))) : list (Z * (string * A)) :=
  match l with
  | [] => [(i, kv)]
  | (j, kv') :: rest =>
      if i <? j then (i, kv) :: l else (j, kv') :: insert_by_index i kv rest
  end.

(** [Object.entries(o)], and the order in which the own keys of an object
    are listed everywhere else: the array indices first, in ascending
    numeric order, then the other keys in the order they were created. *)
Definition Object_entries {A : Type} (o : list (string * A)) : list (string * A) :=
  let properties := own_properties o in
  map snd (fold_left (fun acc kv =>
                        match array_index (fst kv) with
                        | Some i => insert_by_index i kv acc
                        | None => acc
                        end) properties [])
  ++ filter (fun kv => match array_index (fst kv) with
                       | Some _ => false
                       | None => true
                       end) properties.

(** ** [new Response(body, init)] and [Response.redirect] *)

(** The conversion to [unsigned short] of the [status] member, for a
    status that is an integer: the value modulo 2^16. *)
Definition ToUint16 (n : Z) : Z := n mod 65536.

Fixpoint every (p : ascii -> bool) (s : string) : bool :=
  match s with
  | EmptyString => true
  | String c rest => p c && every p rest
  end.

(** The [reason-phrase] production: tab, space, visible characters and
    the bytes from 128 up. *)
Definition is_reason_phrase (text : string) : bool :=
  every (fun c => (code_of c =? 9) || ((32 <=? code_of c) && (code_of c <=? 126))
                  || (128 <=? code_of c)) text.

(** The characters of a [token]: letters, digits and
    [! # $ % & ' * + - . ^ _ ` | ~]. *)
Definition is_token_character (c : ascii) : bool :=
  let n := code_of c in
  ((65 <=? n) && (n <=? 90)) || ((97 <=? n) && (n <=? 122)) || ((48 <=? n) && (n <=? 57))
  || existsb (Z.eqb n) [33; 35; 36; 37; 38; 39; 42; 43; 45; 46; 94; 95; 96; 124; 126].

Definition is_header_name (name : string) : bool :=
  negb (String.eqb name "") && every is_token_character name.

(** HTTP whitespace: tab, line feed, carriage return and space. *)
Definition is_HTTP_whitespace (c : ascii) : bool :=
  existsb (Z.eqb (code_of c)) [9; 10; 13; 32].

Fixpoint strip_leading (s : string) : string :=
  match s with
  | EmptyString => EmptyString
  | String c rest => if is_HTTP_whitespace c then strip_leading rest else s
  end.

Fixpoint strip_trailing (s : string) : string :=
  match s with
  | EmptyString => EmptyString
  | String c rest =>
      match strip_trailing rest with
      | EmptyString => if is_HTTP_whitespace c then EmptyString else String c EmptyString
      | kept => String c kept
      end
  end.

(** A header value is normalized, its leading and trailing whitespace
    removed, before it is checked: what is left may hold neither a NUL
    nor a line feed nor a carriage return. *)
Definition normalize_value (value : string) : string :=
  strip_trailing (strip_leading value).

Definition is_header_value (value : string) : bool :=
  every (fun c => negb (existsb (Z.eqb (code_of c)) [0; 10; 13])) value.

(** Filling a [Headers] object from the entries of a record, in their
    order: an entry whose name is no header name or whose value is no
    header value is a [TypeError]. *)
Fixpoint Headers_fill (init : list (string * string)) (h : Headers) : completion Headers :=
  match init with
  | [] => Normal h
  | (name, value) :: rest =>
      if negb (is_header_name name)
      then Throw (TypeError (name ++ " is an invalid header name."))
      else if negb (is_header_value (normalize_value value))
      then Throw (TypeError (value ++ " is an invalid header value."))
      else Headers_fill rest (Headers_append (lower name) (normalize_value value) h)
  end.

Definition null_body_status (code : Z) : bool :=
  existsb (Z.eqb code) [101; 103; 204; 205; 304].

(** Extracting a body, for the body kinds of [BodyInit]: the stream and
    the content type the body brings; a locked stream is a [TypeError]. *)
Definition extract (b : BodyInit) : completion (option (ReadableStream * option string)) :=
  match b with
  | BodyNull => Normal None
  | BodyString s =>
      Normal (Some (Source (if String.eqb s "" then [] else [s]) false,
                    Some "text/plain;charset=UTF-8"))
  | BodyStream s =>
      if locked s
      then Throw (TypeError "Response body object should not be disturbed or locked")
      else Normal (Some (s, None))
  end.

(** The constructor of the Fetch standard, for a [status] that is an
    integer, a [statusText] and headers that are byte strings, with
    [init] the entries of the [headers] record.  The body is extracted
    first; the status, read as an [unsigned short], must lie in 200..599
    ([RangeError]); the status text must be a reason phrase and the
    headers must be valid ([TypeError]); a body with a null-body status is
    a [TypeError]; a string body brings its content type unless the
    headers have one. *)
Definition Response_new (b : BodyInit) (code : Z) (text : string)
    (init : list (string * string)) : completion Response :=
  extracted <- extract b ;;
  if (ToUint16 code <? 200) || (599 <? ToUint16 code)
  then Throw (RangeError "The status provided is outside the range [200, 599].")
  else if negb (is_reason_phrase text)
  then Throw (TypeError "Invalid statusText")
  else
    h <- Headers_fill init [] ;;
    match extracted with
    | None =>
        Normal {| status := ToUint16 code; statusText := text; headers := h; body := None |}
    | Some (stream, type) =>
        if null_body_status (ToUint16 code)
        then Throw (TypeError "Response with null body status cannot have body")
        else Normal {| status := ToUint16 code; statusText := text;
                       headers := match type with
                                  | Some content_type =>
                                      if Headers_has h "content-type" then h
                                      else Headers_append "content-type" content_type h
                                  | None => h
                                  end;
                       body := Some stream |}
    end.

(** [Response.redirect(url)]: status 302, a [Location] header, no body. *)
Definition Response_redirect (href : string) : Response :=
  {| status := 302; statusText := ""; headers := [("location", href)]; body := None |}.

(** ** The response sender, [_send] (lines 10-15 and 54-157) *)

(** The request as the handler reads it: its URL, and whether it has a
    body stream, which arms the timer of lines 206-213 (when the timer
    fires, that is a [ControllerAbort] event). *)
Record Request := {
  req_url : string;
  req_has_body : bool
}.

(** The frozen context object of lines 229-238, as far as [_send] and the
    hooks read it: [signal] is [controller.signal]. *)
Record Context := {
  ctx_url : string;
  ctx_matches : option nat;
  ctx_signal : signal_id
}.

(** A response postprocessor: called with the response and
    [{ request, context }], it may act on the request through the context
    and then returns a value or fails; [Promise.try] makes a synchronous
    throw and a rejected promise the same failure. *)
Record postprocessor := {
  pp_id : nat;
  pp_call : Response -> option Request -> Context -> list event * completion jsval
}.

(** An entry of the array [Promise.allSettled] resolves to. *)
Inductive settled_result :=
| SFulfilled (value : jsval)
| SRejected (reason : jsval).

(** [result.value], undefined on a rejected entry. *)
Definition result_value (r : settled_result) : jsval :=
  match r with
  | SFulfilled v => v
  | SRejected _ => VUndefined
  end.

Definition allSettled_entry (c : completion jsval) : settled_result :=
  match c with
  | Normal v => SFulfilled v
  | Throw e => SRejected e
  end.

(** [const _isImmutableResponse = resp =>
      resp.status > 299 && resp.status < 309 && resp.headers.has('Location');] *)
Definition _isImmutableResponse (resp : Response) : bool :=
  (299 <? status resp) && (status resp <? 309) && Headers_has (headers resp) "Location".

(** [const _isTransformStream = (result) =>
      result instanceof TransformStream || result instanceof CompressionStream
      || (typeof result === 'object' && result.readable instanceof ReadableStream
          && result.writable instanceof WritableStream);]
    On [null] the third test passes [typeof] and reads a property of [null]. *)
Definition _isTransformStream (result : jsval) : completion bool :=
  match result with
  | VTransformStream _ => Normal true
  | VCompressionStream _ => Normal true
  | VNull => Throw (TypeError "Cannot read properties of null (reading 'readable')")
  | VDuplex r w _ => Normal (r && w)
  | _ => Normal false
  end.

(** [results.filter(result => _isTransformStream(result.value))] *)
Fixpoint filter_transforms (results : list settled_result) : completion (list settled_result) :=
  match results with
  | [] => Normal []
  | r :: rest =>
      keep <- _isTransformStream (result_value r) ;;
      kept <- filter_transforms rest ;;
      Normal (if keep then r :: kept else kept)
  end.

Definition pipe_of (v : jsval) : option Transform :=
  match v with
  | VTransformStream t | VCompressionStream t => Some t
  | VDuplex true true t => Some t
  | _ => None
  end.

(** [stream.pipeThrough(pipe, { signal })]: fails on a null [stream], on a
    locked one, and on a pipe whose writable side is already taken. *)
Definition pipeThrough (stream : option ReadableStream) (pipe : jsval) (signal : signal_id)
    : completion (option ReadableStream) :=
  match stream with
  | None => Throw (TypeError "Cannot read properties of null (reading 'pipeThrough')")
  | Some s =>
      match pipe_of pipe with
      | None => Throw (TypeError "pipeThrough: not a readable and writable pair")
      | Some t =>
          if locked s then Throw (TypeError "The stream is locked")
          else if existsb (Nat.eqb (ts_id t)) (pipes s)
          then Throw (TypeError "The writable side is locked")
          else Normal (Some (PipeThrough s t signal))
      end
  end.

(** [.reduce((stream, pipe) => stream.pipeThrough(pipe, { signal }), resp.body)] *)
Fixpoint reduce_pipes (values : list jsval) (signal : signal_id) (stream : option ReadableStream)
    : completion (option ReadableStream) :=
  match values with
  | [] => Normal stream
  | pipe :: rest =>
      next <- pipeThrough stream pipe signal ;;
      reduce_pipes rest signal next
  end.

(** The [then] callback of lines 76-80. *)
Definition chain_transforms (results : list settled_result) (signal : signal_id)
    (original : option ReadableStream) : completion (option ReadableStream) :=
  kept <- filter_transforms results ;;
  reduce_pipes (map result_value kept) signal original.

(** [responsePostprocessors.map(postProcessor => Promise.try(...))]:
    every postprocessor is called, in order; what each does to the request
    is collected with how it settles. *)
Definition call_postprocessors (pps : list postprocessor) (resp : Response)
    (request : option Request) (context : Context) : list event * list settled_result :=
  (List.concat (map (fun pp => fst (pp_call pp resp request context)) pps),
   map (fun pp => allSettled_entry (snd (pp_call pp resp request context))) pps).

(** Lines 82-91: headers, cookies and the status line, unless already sent. *)
Definition write_head (resp : Response) (m : ServerResponse) : ServerResponse :=
  if negb (headersSent m)
  then
    let m1 := fold_left (fun acc kv =>
                if negb (String.eqb (fst kv) "set-cookie")
                then setHeader (fst kv) (snd kv) acc else acc)
              (headers resp) m in
    let m2 := fold_left (fun acc cookie => appendHeader "Set-Cookie" cookie acc)
              (Headers_getSetCookie (headers resp)) m1 in
    writeHead (if status resp =? 0 then 500 else status resp) (Some (statusText resp)) m2
  else m.

(** [new Error(reason)] *)
Definition Error_new (reason : jsval) : jsval :=
  VError "Error" (match reason with VUndefined => "" | _ => ToString reason end) VUndefined.

(** Lines 56-67, and again 94-104: the reply to an aborted request. *)
Definition abort_reply (reason : jsval) (m : ServerResponse) : ServerResponse :=
  let m1 := if negb (headersSent m)
            then writeHead 408 None (setHeader "Content-Type" "application/json" m)
            else m in
  let m2 := if writable m1
            then
              let cause := if instanceof_Error reason then reason else Error_new reason in
              write (ErrorJSON (VHTTPError (message_of cause) 408 cause)) m1
            else m1 in
  end_ m2.

(** The calls made on the body stream and its reader. *)
Inductive stream_call :=
| GetReader
| Read
| ReleaseLock
| Cancel (reason : jsval).

(** Lines 105-144, for a body that is read to its end: the signal does not
    abort and no read fails while the loop runs ([stream_out_aborted] below
    is the loop under an abort).  Each chunk read is
    written; at [done] the reader is released, the message ended and the
    stream cancelled with ['Done']. *)
Definition stream_out (b : option ReadableStream) (m : ServerResponse)
    : ServerResponse * list stream_call :=
  match b with
  | Some s =>
      if writable m && negb (locked s)
      then (end_ (fold_left (fun acc c => write (Chunk c) acc) (read_all s) m),
            GetReader :: map (fun _ => Read) (read_all s)
              ++ [Read; ReleaseLock; Cancel (VString "Done")])
      else (end_ m, [])
  | None => (end_ m, [])
  end.

(** *** The loop when the signal aborts during a read

    The body stream and its reader as lines 105-141 use them: the [locked]
    flag of the body, whether a [reader.read()] is waiting, the reasons of
    the callbacks waiting on [reader.closed], and the calls made so far.
    The stream is in the middle of its chunks: it has neither closed nor
    failed. *)
Record reading := {
  rd_locked : bool;
  rd_read_pending : bool;
  rd_on_closed : list jsval;
  rd_calls : list stream_call
}.

(** [body.getReader()] *)
Definition getReader : reading :=
  {| rd_locked := true; rd_read_pending := false; rd_on_closed := [];
     rd_calls := [GetReader] |}.

(** [reader.read()], which delivers its chunk: the read is no longer
    waiting. *)
Definition read_chunk (r : reading) : reading :=
  {| rd_locked := rd_locked r; rd_read_pending := false;
     rd_on_closed := rd_on_closed r; rd_calls := rd_calls r ++ [Read] |}.

(** [reader.read()], with no chunk there yet. *)
Definition read_waiting (r : reading) : reading :=
  {| rd_locked := rd_locked r; rd_read_pending := true;
     rd_on_closed := rd_on_closed r; rd_calls := rd_calls r ++ [Read] |}.

(** [body.cancel(reason)] *)
Definition body_cancel (reason : jsval) (r : reading) : reading :=
  {| rd_locked := rd_locked r; rd_read_pending := rd_read_pending r;
     rd_on_closed := rd_on_closed r; rd_calls := rd_calls r ++ [Cancel reason] |}.

(** [reader.closed.then(() => { body.cancel(reason) })]: the callback waits
    for the promise. *)
Definition closed_then (reason : jsval) (r : reading) : reading :=
  {| rd_locked := rd_locked r; rd_read_pending := rd_read_pending r;
     rd_on_closed := rd_on_closed r ++ [reason]; rd_calls := rd_calls r |}.

Definition released : jsval := TypeError "Invalid state: Releasing reader".

(** [reader.releaseLock()] on a stream that is still readable, as the
    Streams standard has it: the lock is released, [reader.closed] is
    rejected with a [TypeError], so that the callbacks waiting for it to
    fulfil never run, and a waiting [read()] is rejected with a
    [TypeError], which is returned here. *)
Definition releaseLock (r : reading) : reading * option jsval :=
  ({| rd_locked := false; rd_read_pending := false; rd_on_closed := [];
      rd_calls := rd_calls r ++ [ReleaseLock] |},
   if rd_read_pending r then Some released else None).

(** Lines 107-117:
    [const cancel = reason => { if (body.locked) {
       reader.closed.then(() => { body.cancel(reason).catch(_noop); }).catch(_noop);
       reader.releaseLock();
     } else { body.cancel(reason).catch(_noop); } };] *)
Definition cancel (reason : jsval) (r : reading) : reading * option jsval :=
  if rd_locked r
  then releaseLock (closed_then reason r)
  else (body_cancel reason r, None).

(** What the loop leaves when it was aborted. *)
Record aborted_stream := {
  ab_message : ServerResponse;
  ab_destroyed : option jsval;
  ab_reading : reading
}.

(** Lines 105-141 for a writable message and an unlocked body [s] that no
    pipe feeds, when [k] chunks have been read and written and the signal
    aborts with [reason] while the loop waits for the next read.  The listener of line
    120 runs [cancel(reason)]; the rejected read resumes the loop in its
    [catch], which destroys the message and runs [cancel(err)]. *)
Definition stream_out_aborted (s : ReadableStream) (m : ServerResponse) (k : nat)
    (reason : jsval) : aborted_stream :=
  let chunks := firstn k (read_all s) in
  let m1 := fold_left (fun acc c => write (Chunk c) acc) chunks m in
  let r1 := read_waiting (fold_left (fun acc _ => read_chunk acc) chunks getReader) in
  let '(r2, rejected) := cancel reason r1 in
  match rejected with
  | Some err =>
      {| ab_message := m1; ab_destroyed := Some err; ab_reading := fst (cancel err r2) |}
  | None =>
      {| ab_message := m1; ab_destroyed := None; ab_reading := r2 |}
  end.

(** What a call of [_send] leaves: the exception it threw if any, the
    message, the request variables, the postprocessors it called and the
    calls it made on the body. *)
Record sent := {
  thrown : option jsval;
  message : ServerResponse;
  state_after : request_state;
  postprocessor_calls : list nat;
  body_sent : option (option ReadableStream);
  stream_calls : list stream_call
}.

(** The branch [resp instanceof Response] (lines 68-144).  [during] is what
    happens while [_send] awaits the postprocessors; an immutable response
    is not awaited. *)
Definition send_Response (resp : Response) (m : ServerResponse)
    (pps : list postprocessor) (context : Context) (request : option Request)
    (st : request_state) (during : list event) : sent :=
  let signal := ctx_signal context in
  let '(st1, called, selected) :=
    if _isImmutableResponse resp
    then (st, [], Normal (body resp))
    else
      let '(effects, results) := call_postprocessors pps resp request context in
      (run_events (effects ++ during) st, map pp_id pps,
       chain_transforms results signal (body resp)) in
  match selected with
  | Throw e =>
      {| thrown := Some e; message := m; state_after := st1;
         postprocessor_calls := called; body_sent := None; stream_calls := [] |}
  | Normal b =>
      let m1 := write_head resp m in
      match signal_state st1 signal with
      | Some reason =>
          {| thrown := None; message := abort_reply reason m1; state_after := st1;
             postprocessor_calls := called; body_sent := None; stream_calls := [] |}
      | None =>
          {| thrown := None; message := fst (stream_out b m1); state_after := st1;
             postprocessor_calls := called; body_sent := Some b;
             stream_calls := snd (stream_out b m1) |}
      end
  end.

(** The [headers] member of line 152,
    [Array.isArray(respHeaders) ? Object.fromEntries(respHeaders) : respHeaders],
    as the entries the constructor reads from the record, in the order
    of its keys. *)
Definition HeadersInit_record (h : option HeadersInit) : list (string * string) :=
  match h with
  | None => []
  | Some (HeaderEntries l) => Object_entries (Object_fromEntries l)
  | Some (HeaderRecord l) => Object_entries l
  end.

(** [new Response(body, { status, statusText, headers })] of lines 147-153,
    with the defaults of the destructuring. *)
Definition Response_of (o : ResponseLike) : completion Response :=
  Response_new
    (match o_body o with Some b => b | None => BodyNull end)
    (match o_status o with Some c => c | None => 200 end)
    (match o_statusText o with Some t => t | None => "" end)
    (HeadersInit_record (o_headers o)).

(** [HTTPError.js] is not among the sources; what the code uses of it is
    a parameter.  [_send] reads the [headers], [body], [status] and
    [statusText] properties of an [HTTPError] it is handed and builds one
    with the default status; the request handler reads [err.response], and
    at line 265 calls [HTTPError(message, { status, cause })] as a
    function, without [new]. *)
Record HTTPError_module := {
  HTTPError_properties : string -> Z -> jsval -> ResponseLike;
  HTTPError_default_status : Z;
  HTTPError_response : string -> Z -> jsval -> jsval;
  HTTPError_call : string -> Z -> jsval -> completion jsval
}.

Section Sender.

Variable E : HTTPError_module.

(** The destructuring of line 147. *)
Definition destructure (resp : jsval) : completion ResponseLike :=
  match resp with
  | VNull => Throw (TypeError "Cannot destructure 'resp' as it is null.")
  | VObject o => Normal o
  | VHTTPError message code cause => Normal (HTTPError_properties E message code cause)
  | _ => Normal no_properties
  end.

Definition send_object (resp : jsval) (m : ServerResponse)
    (pps : list postprocessor) (context : Context) (request : option Request)
    (st : request_state) (during : list event) : sent :=
  match o <- destructure resp ;; Response_of o with
  | Throw e =>
      {| thrown := Some e; message := m; state_after := st;
         postprocessor_calls := []; body_sent := None; stream_calls := [] |}
  | Normal r => send_Response r m pps context request st during
  end.

(** [async function _send(resp, respMessage,
      { responsePostprocessors = [], context = {}, request } = {})].
    The two recursive calls are made without an intervening [await], so
    they find the signal as this call found it and go on in the
    [Response] branch, respectively the object branch. *)
Definition _send (resp : jsval) (respMessage : ServerResponse)
    (responsePostprocessors : list postprocessor) (context : Context)
    (request : option Request) (st : request_state) (during : list event) : sent :=
  match signal_state st (ctx_signal context) with
  | Some reason =>
      {| thrown := None; message := abort_reply reason respMessage; state_after := st;
         postprocessor_calls := []; body_sent := None; stream_calls := [] |}
  | None =>
      match resp with
      | VResponse r =>
          send_Response r respMessage responsePostprocessors context request st during
      | _ =>
          if typeof_object resp
          then send_object resp respMessage responsePostprocessors context request st during
          else send_object (VHTTPError "Invalid response." (HTTPError_default_status E) VUndefined)
                 respMessage responsePostprocessors context request st during
      end
  end.

End Sender.

(** ** The request handler of [serve] (lines 190-311) *)

(** A [URLPattern] object: [pat_id] is its identity, the key of [ROUTES]. *)
Record URLPattern := {
  pat_id : nat;
  pat_source : string;
  pat_base : string
}.

(** A route handler: called with [(request, context)], it may act on the
    request through the context and then returns a value or fails;
    [Promise.try(...).catch(err => err)] makes a throw and a rejected
    promise the same. *)
Record handler := {
  h_source : string;
  h_call : Request -> Context -> list event * completion jsval
}.

(** A value of the [routes] object, and what [resolveModulePath] makes of
    it: a function, or the specifier handed to [import()]. *)
Inductive route_module :=
| ModuleFunction (f : handler)
| ModulePath (path : string).

Inductive target :=
| TargetFunction (f : handler)
| TargetSpecifier (specifier : string).

(** What [await import(moduleSpecifier)] gives: a rejection, or a module
    namespace whose [default] is a function or is not. *)
Inductive imported :=
| ImportRejects (reason : jsval)
| ImportModule (default : option handler).

(** How a request preprocessor ends: its promise fulfils (or it returns a
    plain value), its promise rejects, or the call itself throws.  A
    preprocessor or a handler whose promise never settles leaves the
    request handler suspended at its [await] for good: that course has no
    outcome and is not among the courses modelled. *)
Inductive hook_result :=
| HookFulfils
| HookRejects (reason : jsval)
| HookThrows (e : jsval).

Definition preprocessor := Request -> Context -> list event * hook_result.

Record FileURL := {
  file_href : string;
  file_pathname : string
}.

(** The options of [serve] the request handler reads.  [routes] is the
    [routes] object, given by its property definitions in the order they
    are written; [base_url] is the [url] of line 189. *)
Record config := {
  staticRoot : string;
  base_url : string;
  routes : list (string * route_module);
  logger_is_function : bool;
  requestPreprocessors : list preprocessor;
  responsePostprocessors : list postprocessor;
  passedSignal_is_AbortSignal : bool
}.

(** What happens around one request: the state of the passed signal when
    the request arrives, and the events at each [await]. *)
Record environment := {
  passed_at_start : option jsval;
  during_hooks : list event;
  during_import : list event;
  during_resolveStaticPath : list event;
  during_respondWithFile : list event;
  during_settlement : list event;
  during_postprocessors : list event;
  during_postprocessors_again : list event
}.

(** The calls the handler makes on its collaborators, in order. *)
Inductive step :=
| CalledHook (index : nat)
| Imported (specifier : string)
| CalledHandler (source : string)
| ExistsSync (href : string)
| ResolvedStaticPath (pathname : string)
| RespondedWithFile (path : string)
| Logged (err : jsval).

(** The text of [moduleSpecifier] in a template literal. *)
Definition target_text (t : target) : string :=
  match t with
  | TargetFunction f => h_source f
  | TargetSpecifier s => s
  end.

(** The entry [Promise.allSettled] holds for a preprocessor that was called. *)
Definition allSettled_hook (result : hook_result) : settled_result :=
  match result with
  | HookRejects reason => SRejected reason
  | _ => SFulfilled VUndefined
  end.

(** [requestPreprocessors.map(plugin => plugin(request, context))]: the
    hooks are called in order; a hook that throws ends the [map], and the
    hooks after it are not called. *)
Fixpoint call_hooks (hooks : list preprocessor) (index : nat) (request : Request)
    (context : Context) : list event * list step * completion (list settled_result) :=
  match hooks with
  | [] => ([], [], Normal [])
  | plugin :: rest =>
      let '(effects, result) := plugin request context in
      match result with
      | HookThrows e => (effects, [CalledHook index], Throw e)
      | _ =>
          let '(effects', steps, results) := call_hooks rest (S index) request context in
          (effects ++ effects', CalledHook index :: steps,
           r <- results ;;
           Normal (allSettled_hook result :: r))
      end
  end.

(** [results.filter(result => result.status === 'rejected').map(result => result.reason)] *)
Fixpoint rejected_reasons (results : list settled_result) : list jsval :=
  match results with
  | [] => []
  | SRejected reason :: rest => reason :: rejected_reasons rest
  | SFulfilled _ :: rest => rejected_reasons rest
  end.

(** The other collaborators that are not among the sources ([utils.js])
    or belong to the platform ([URLPattern], [import()], [existsSync]).
    [URLPattern_test source base url] is [pattern.test(url)] for the
    pattern built from [source] and [base]. *)
Record collaborators := {
  errors : HTTPError_module;
  URLPattern_test : string -> string -> string -> bool;
  resolveModulePath : route_module -> target;
  import_ : string -> imported;
  getFileURL : string -> string -> FileURL;
  existsSync : string -> bool;
  resolveStaticPath : string -> completion (option string);
  respondWithFile : string -> completion jsval
}.

Section Serve.

Variable X : collaborators.

(** Line 190: [new Map(Object.entries(routes).map(([pattern, module]) =>
      [new URLPattern(pattern, url), resolveModulePath(module)]))],
    for patterns the [URLPattern] constructor accepts.  Each entry gets a
    pattern object of its own, so no key of the map is replaced and the
    map keeps the order of [Object.entries(routes)]. *)
Fixpoint build_ROUTES (entries : list (string * route_module)) (base : string) (next : nat)
    : list (URLPattern * target) :=
  match entries with
  | [] => []
  | (pattern, module) :: rest =>
      ({| pat_id := next; pat_source := pattern; pat_base := base |}, resolveModulePath X module)
        :: build_ROUTES rest base (S next)
  end.

Definition ROUTES (cfg : config) : list (URLPattern * target) :=
  build_ROUTES (Object_entries (routes cfg)) (base_url cfg) 0.

Definition test (pattern : URLPattern) (url : string) : bool :=
  URLPattern_test X (pat_source pattern) (pat_base pattern) url.

(** Line 201: [ROUTES.keys().find(pattern => pattern.test(request.url))] *)
Definition find_pattern (table : list (URLPattern * target)) (url : string) : option URLPattern :=
  find (fun pattern => test pattern url) (map fst table).

(** Line 257: [ROUTES.get(pattern)], a lookup by the identity of the key. *)
Definition ROUTES_get (table : list (URLPattern * target)) (pattern : URLPattern) : option target :=
  option_map snd (find (fun entry => Nat.eqb (pat_id (fst entry)) (pat_id pattern)) table).

Definition not_found (request : Request) : jsval :=
  VHTTPError ("<" ++ req_url request ++ "> not found.") 404 VUndefined.

(** Lines 270-280: the handler is called and what it returns, or throws,
    is classified. *)
Definition call_handler (f : handler) (specifier : string) (request : Request)
    (context : Context) (st : request_state) : request_state * list step :=
  let '(effects, result) := h_call f request context in
  let st1 := run_events effects st in
  let resp := match result with Normal v => v | Throw e => e end in
  (match resp with
   | VResponse _ => resolve resp st1
   | VURL href => resolve (VResponse (Response_redirect href)) st1
   | _ =>
       if instanceof_Error resp then reject resp st1
       else reject (TypeError (specifier ++ " did not return a response.")) st1
   end, [CalledHandler (h_source f)]).

(** Lines 264-268: [reject(HTTPError('There was an error handling the
    request.', { status: 500, cause: new Error(...) }))].  What the call
    throws leaves the [try] block and is caught at line 295. *)
Definition missing_default (specifier : string) (st : request_state) : request_state :=
  match HTTPError_call (errors X) "There was an error handling the request." 500
          (VError "Error" (specifier ++ " is missing a default export.") VUndefined) with
  | Normal err => reject err st
  | Throw e => reject e st
  end.

(** Lines 257-281: the branch of a matched route. *)
Definition run_route (moduleSpecifier : target) (env : environment) (request : Request)
    (context : Context) (st : request_state) : request_state * list step :=
  match moduleSpecifier with
  | TargetFunction f => call_handler f (target_text moduleSpecifier) request context st
  | TargetSpecifier s =>
      let st1 := run_events (during_import env) st in
      match import_ X s with
      | ImportRejects err =>
          if instanceof_Error err then (reject err st1, [Imported s])
          else
            match err with
            | VNull | VUndefined =>
                (reject (TypeError ("Cannot read properties of " ++ ToString err
                                    ++ " (reading 'default')")) st1,
                 [Imported s])
            | _ => (missing_default s st1, [Imported s])
            end
      | ImportModule None => (missing_default s st1, [Imported s])
      | ImportModule (Some f) =>
          let '(st2, steps) := call_handler f s request context st1 in
          (st2, Imported s :: steps)
      end
  end.

(** Lines 283-291: the branch of an existing static file. *)
Definition run_static (fileURL : FileURL) (env : environment) (request : Request)
    (st : request_state) : request_state * list step :=
  let st1 := run_events (during_resolveStaticPath env) st in
  match resolveStaticPath X (file_pathname fileURL) with
  | Throw e => (reject e st1, [ResolvedStaticPath (file_pathname fileURL)])
  | Normal None =>
      (reject (not_found request) st1, [ResolvedStaticPath (file_pathname fileURL)])
  | Normal (Some resolved) =>
      let st2 := run_events (during_respondWithFile env) st1 in
      (match respondWithFile X resolved with
       | Throw e => reject e st2
       | Normal resp => resolve resp st2
       end,
       [ResolvedStaticPath (file_pathname fileURL); RespondedWithFile resolved])
  end.

(** Line 194: the signal the handler itself watches. *)
Definition request_signal (cfg : config) : signal_id :=
  if passedSignal_is_AbortSignal cfg then AnySignal else ControllerSignal.

(** Lines 229-238. *)
Definition context_of (pattern : option URLPattern) (request : Request) : Context :=
  {| ctx_url := req_url request;
     ctx_matches := option_map pat_id pattern;
     ctx_signal := ControllerSignal |}.

(** Lines 193-297: from the arrival of the request to the end of the
    [try] statement. *)
Definition settle_request (cfg : config) (env : environment) (request : Request)
    : request_state * list step :=
  let signal := request_signal cfg in
  let fileURL := getFileURL X (req_url request) (staticRoot cfg) in
  let pattern := find_pattern (ROUTES cfg) (req_url request) in
  let context := context_of pattern request in
  let st0 := initial_state
               (if passedSignal_is_AbortSignal cfg then passed_at_start env else None) in
  let '(effects, called, results) :=
    call_hooks (requestPreprocessors cfg) 0 request context in
  match results with
  | Throw err => (reject err (run_events effects st0), called)
  | Normal results =>
      let st1 := run_events (effects ++ during_hooks env) st0 in
      let hookErrs := rejected_reasons results in
      match signal_state st1 signal with
      | Some reason => (reject reason st1, called)
      | None =>
          if Nat.eqb (List.length hookErrs) 1
          then (reject (hd VUndefined hookErrs) st1, called)
          else if negb (Nat.eqb (List.length hookErrs) 0)
          then (reject (VAggregateError hookErrs) st1, called)
          else
            match controller_signal st1 with
            | Some reason => (reject reason st1, called)
            | None =>
                match negb (settled st1), pattern with
                | true, Some p =>
                    let moduleSpecifier :=
                      match ROUTES_get (ROUTES cfg) p with
                      | Some t => t
                      | None => TargetSpecifier "undefined"
                      end in
                    let '(st2, steps) := run_route moduleSpecifier env request context st1 in
                    (st2, called ++ steps)
                | true, None =>
                    if existsSync X (file_href fileURL)
                    then
                      let '(st2, steps) := run_static fileURL env request st1 in
                      (st2, called ++ ExistsSync (file_href fileURL) :: steps)
                    else (reject (not_found request) st1,
                          called ++ [ExistsSync (file_href fileURL)])
                | false, _ => (st1, called)
                end
            end
      end
  end.

(** Lines 301-311: the [catch] callback. *)
Definition send_error (cfg : config) (err : jsval) (respMessage : ServerResponse)
    (context : Context) (request : Request) (st : request_state) (during : list event)
    : sent * list step :=
  (match err with
   | VHTTPError message code cause =>
       _send (errors X) (HTTPError_response (errors X) message code cause) respMessage
         (responsePostprocessors cfg) context (Some request) st during
   | _ =>
       _send (errors X) (HTTPError_response (errors X) "An unknown error occured" 500 err)
         respMessage
         (responsePostprocessors cfg) context None st during
   end,
   if logger_is_function cfg then [Logged err] else []).

(** Lines 299-311: [await promise.then(resp => _send(...)).catch(...)].
    The [catch] callback also gets what [_send] throws in the [then]
    callback. *)
Definition respond (cfg : config) (env : environment) (request : Request)
    (context : Context) (respMessage : ServerResponse) (st : request_state)
    : sent * list step :=
  let st1 := run_events (during_settlement env) st in
  match promise st1 with
  | Pending =>
      ({| thrown := None; message := respMessage; state_after := st1;
          postprocessor_calls := []; body_sent := None; stream_calls := [] |}, [])
  | Fulfilled resp =>
      let first := _send (errors X) resp respMessage
                     (responsePostprocessors cfg) context (Some request) st1
                     (during_postprocessors env) in
      match thrown first with
      | None => (first, [])
      | Some err =>
          send_error cfg err (message first) context request (state_after first)
            (during_postprocessors_again env)
      end
  | Rejected err =>
      send_error cfg err respMessage context request st1 (during_postprocessors env)
  end.

(** The callback given to [createServer]. *)
Definition handle_request (cfg : config) (env : environment) (request : Request)
    (respMessage : ServerResponse) : sent * list step :=
  let '(st, steps) := settle_request cfg env request in
  let context := context_of (find_pattern (ROUTES cfg) (req_url request)) request in
  let '(result, logged) := respond cfg env request context respMessage st in
  (result, steps ++ logged).

End Serve.


(** ** The command line (src/unnamed/part_000) *)

(** [arg.split('=')]: the pieces between the equals signs, one piece for a
    string without any. *)
Fixpoint split_equals (s : string) : list string :=
  match s with
  | EmptyString => [EmptyString]
  | String c rest =>
      if Ascii.eqb c "="%char
      then EmptyString :: split_equals rest
      else
        match split_equals rest with
        | piece :: pieces => String c piece :: pieces
        | [] => [String c EmptyString]
        end
  end.

(** [const args = process.argv.slice(2).map(arg => arg.split('=')).flat();] *)
Definition args_of (argv : list string) : list string :=
  flat_map split_equals (skipn 2 argv).

(** The [flag] argument of [getArg] and [hasArg]: a string or an array of
    strings. *)
Inductive flag :=
| Flag (name : string)
| Flags (names : list string).

Definition includes (l : list string) (s : string) : bool :=
  existsb (String.eqb s) l.

(** [findIndex] and [indexOf]: the index of the first element that passes,
    [None] for -1. *)
Fixpoint findIndex (test : string -> bool) (l : list string) : option nat :=
  match l with
  | [] => None
  | x :: rest => if test x then Some 0%nat else option_map S (findIndex test rest)
  end.

(** [function getArg(flag, defaultValue) {
       const index = Array.isArray(flag) ? args.findIndex(arg => flag.includes(arg))
                                         : args.indexOf(flag);
       return index === -1 ? defaultValue : args[index + 1] ?? defaultValue; }]
    [None] is [undefined], for the default as for the result. *)
Definition getArg (args : list string) (f : flag) (defaultValue : option string)
    : option string :=
  let index :=
    match f with
    | Flags names => findIndex (fun arg => includes names arg) args
    | Flag name => findIndex (String.eqb name) args
    end in
  match index with
  | None => defaultValue
  | Some i =>
      match nth_error args (S i) with
      | Some value => Some value
      | None => defaultValue
      end
  end.

(** [function hasArg(flag) {
       return Array.isArray(flag) ? flag.some(f => args.includes(f))
                                  : args.includes(flag); }] *)
Definition hasArg (args : list string) (f : flag) : bool :=
  match f with
  | Flags names => existsb (fun name => includes args name) names
  | Flag name => includes args name
  end.

(** A property value of the configuration object. *)
Inductive option_value :=
| OUndefined
| OString (s : string)
| ONumber (n : option Z)
| OBoolean (b : bool)
| OTimeoutSignal (milliseconds : Z).

Definition string_or_undefined (v : option string) : option_value :=
  match v with
  | Some s => OString s
  | None => OUndefined
  end.

(** What the script hands to [serve]: the module named by [--config], or
    the object built from the other flags. *)
Inductive cli_config :=
| ImportedConfig (specifier : option string)
| InlineConfig (properties : list (string * option_value)).

Section CommandLine.

(** [parseInt(string)], an integer, with [None] for [NaN]. *)
Variable parseInt : string -> option Z.

(** [parseInt(...) || 0] *)
Definition or_zero (n : option Z) : Z :=
  match n with
  | Some z => z
  | None => 0
  end.

(** [AbortSignal.timeout(milliseconds)], called with an integer: a delay
    that is negative or above 2^32 - 1 is a [RangeError] (the text of the
    message is the platform's). *)
Definition AbortSignal_timeout (milliseconds : Z) : completion option_value :=
  if (milliseconds <? 0) || (4294967295 <? milliseconds)
  then Throw (RangeError "The value of delay is out of range.")
  else Normal (OTimeoutSignal milliseconds).

(** [const config = hasArg(['-c', '--config'])
       ? await import(getArg(['-c', '--config'])) : { hostname: ..., port: ...,
         launch: ..., staticRoot: ..., signal: ... };]
    What the script hands to [serve], or what the object literal throws
    before [serve] is called. *)
Definition config_of (args : list string) : completion cli_config :=
  if hasArg args (Flags ["-c"; "--config"])
  then Normal (ImportedConfig (getArg args (Flags ["-c"; "--config"]) None))
  else
    signal <- (if hasArg args (Flags ["-t"; "--timeout"])
               then AbortSignal_timeout
                      (or_zero match getArg args (Flags ["-t"; "--timeout"]) (Some "0") with
                               | Some s => parseInt s
                               | None => None
                               end)
               else Normal OUndefined) ;;
    Normal (InlineConfig
      [("hostname", string_or_undefined (getArg args (Flags ["-h"; "--hostname"]) None));
       ("port", ONumber
                  match getArg args (Flags ["-p"; "--port"]) (Some "8000") with
                  | Some s => parseInt s
                  | None => None
                  end);
       ("launch", OBoolean (hasArg args (Flags ["-l"; "--launch"])));
       ("staticRoot", string_or_undefined (getArg args (Flags ["-s"; "--static"]) None));
       ("signal", signal)]).

End CommandLine.

(** The parameter list of [serve] (lines 175-187): a property that is
    absent or undefined takes its default. *)
Fixpoint property (name : string) (properties : list (string * option_value))
    : option_value :=
  match properties with
  | [] => OUndefined
  | (key, value) :: rest => if String.eqb key name then value else property name rest
  end.

Definition with_default (value default : option_value) : option_value :=
  match value with
  | OUndefined => default
  | _ => value
  end.

(** The options [serve] works with, of those the command line can set. *)
Record serve_options := {
  opt_hostname : option_value;
  opt_staticRoot : option_value;
  opt_port : option_value;
  opt_pathname : option_value;
  opt_open : option_value;
  opt_signal : option_value;
  opt_timeout : option_value
}.

Definition serve_parameters (properties : list (string * option_value)) : serve_options :=
  {| opt_hostname := with_default (property "hostname" properties) (OString "localhost");
     opt_staticRoot := with_default (property "staticRoot" properties) (OString "/");
     opt_port := with_default (property "port" properties) (ONumber (Some 8080));
     opt_pathname := with_default (property "pathname" properties) (OString "/");
     opt_open := with_default (property "open" properties) (OBoolean false);
     opt_signal := property "signal" properties;
     opt_timeout := with_default (property "timeout" properties) (ONumber (Some 1000)) |}.

(** ** Opening the browser and starting the server (lines 17-43 and 188-190,
    314-334) *)

(** [process.platform], as [_open] distinguishes it. *)
Inductive platform :=
| Darwin
| Win32
| OtherPlatform.

(** The argument of [_open]: a string, a [URL] with its [protocol] and
    [href], or anything else. *)
Inductive open_argument :=
| OpenString (s : string)
| OpenURL (protocol href : string)
| OpenOther.

Definition double_quote : string := String (ascii_of_nat 34) EmptyString.

(** The command of the [switch] of lines 26-37. *)
Definition open_command (p : platform) (href : string) : string :=
  match p with
  | Darwin => "open "
  | Win32 => "start "
  | OtherPlatform => "xdg-open "
  end ++ double_quote ++ href ++ double_quote.

Section Startup.

(** [URL.parse(string)]: the protocol and the [href] of the URL, or
    [null]. *)
Variable URL_parse : string -> option (string * string).

(** [_open] on a [URL], or on [null] and other values: the command handed
    to [exec], or the [TypeError] thrown. *)
Definition _open_URL (p : platform) (url : open_argument) : completion string :=
  match url with
  | OpenURL protocol href =>
      if String.eqb protocol "http:" || String.eqb protocol "https:"
      then Normal (open_command p href)
      else Throw (TypeError ("Invalid URL: " ++ href))
  | _ => Throw (TypeError "URL must be a string or URL.")
  end.

(** [async function _open(url)]: a string is parsed and [_open] called
    again on the result. *)
Definition _open (p : platform) (url : open_argument) : completion string :=
  match url with
  | OpenString s =>
      _open_URL p match URL_parse s with
                  | Some (protocol, href) => OpenURL protocol href
                  | None => OpenOther
                  end
  | _ => _open_URL p url
  end.

(** [new URL(pathname, base).href], or what the constructor throws. *)
Variable URL_href : string -> string -> completion string.

(** The calls made on the server. *)
Inductive server_call :=
| Listen (port : Z) (hostname : string)
| OnceListening
| OnceClose
| Close.

(** What [serve] leaves: the calls on the server, the outcome of the
    [_open] it started if any, and what it returns or throws, [None] when
    it does neither because the [await] of line 320 never resumes. *)
Record started := {
  server_calls : list server_call;
  opened : option (completion string);
  returned : option (completion string)
}.

(** [serve], for a port and a host name the server can bind, a route
    table that builds, and a passed signal that is an [AbortSignal] or
    absent.  [aborted_before] holds the reason of the signal when it has
    aborted before [serve] is called: the listener of line 317 then never
    runs, the server binds, and line 324 closes it.
    [aborted_while_binding] holds the reason when the signal aborts while
    [serve] awaits the [listening] event: the listener closes the server,
    a server closed before it listens never emits [listening], and
    [serve] stays suspended at line 320. *)
Definition serve (p : platform) (hostname : string) (port : Z) (pathname : string)
    (open : bool) (has_signal : bool) (aborted_before aborted_while_binding : option jsval)
    : started :=
  match URL_href pathname ("http://" ++ hostname ++ ":" ++ decimal port) with
  | Throw e => {| server_calls := []; opened := None; returned := Some (Throw e) |}
  | Normal url =>
      match has_signal, aborted_before, aborted_while_binding with
      | true, Some reason, _ =>
          {| server_calls := [Listen port hostname; OnceListening; OnceClose; Close];
             opened := None;
             returned := Some (Throw reason) |}
      | true, None, Some _ =>
          {| server_calls := [Listen port hostname; OnceListening; Close];
             opened := None;
             returned := None |}
      | _, _, _ =>
          {| server_calls := [Listen port hostname; OnceListening; OnceClose];
             opened := if open then Some (_open p (OpenString url)) else None;
             returned := Some (Normal url) |}
      end
  end.

End Startup.
(** * Notions used in the statements *)

(** The flag and the promise go together: the request is settled exactly
    when its promise is no longer pending. *)
Definition consistent (st : request_state) : Prop :=
  settled st = false <-> promise st = Pending.

(** The result of the first call of [resolve] or [reject] in a run of
    events, if there is one. *)
Fixpoint first_call (es : list event) : option promise_state :=
  match es with
  | [] => None
  | CallResolve v :: _ => Some (Fulfilled v)
  | CallReject r :: _ => Some (Rejected r)
  | _ :: rest => first_call rest
  end.

Definition is_callback (e : event) : bool :=
  match e with
  | CallResolve _ | CallReject _ => true
  | _ => false
  end.

(** [AbortSignal.any] has aborted whenever the controller has. *)
Definition any_follows (st : request_state) : Prop :=
  controller_signal st = None \/ any_signal st <> None.

Section Notions.

Variable X : collaborators.

(** The context object of a request, and the request variables when it
    arrives. *)
Definition request_context (cfg : config) (request : Request) : Context :=
  context_of (find_pattern X (ROUTES X cfg) (req_url request)) request.

Definition arrival (cfg : config) (env : environment) : request_state :=
  initial_state (if passedSignal_is_AbortSignal cfg then passed_at_start env else None).

(** The preprocessor fan-out of line 244, and the request variables when
    [Promise.allSettled] has resolved. *)
Definition fan_out (cfg : config) (request : Request)
    : list event * list step * completion (list settled_result) :=
  call_hooks (requestPreprocessors cfg) 0 request (request_context cfg request).

Definition state_after_hooks (cfg : config) (env : environment) (request : Request)
    : request_state :=
  run_events (fst (fst (fan_out cfg request)) ++ during_hooks env) (arrival cfg env).

(** The handler gets to route resolution (line 256) with the request
    unsettled: no preprocessor threw or rejected, the signal has not
    aborted, and neither callback has been called. *)
Definition reaches_resolution (cfg : config) (env : environment) (request : Request) : bool :=
  match snd (fan_out cfg request) with
  | Normal results =>
      match rejected_reasons results with
      | [] => negb (aborted (state_after_hooks cfg env request) (request_signal cfg))
              && negb (settled (state_after_hooks cfg env request))
      | _ :: _ => false
      end
  | Throw _ => false
  end.

End Notions.

(** The files [existsSync] was asked about, and the route targets that
    were imported or called. *)
Definition static_lookups (steps : list step) : list string :=
  flat_map (fun s => match s with ExistsSync href => [href] | _ => [] end) steps.

Definition route_steps (steps : list step) : list step :=
  filter (fun s => match s with Imported _ | CalledHandler _ => true | _ => false end) steps.

(** The transforms the body [_send] streamed has been piped through. *)
Definition pipes_of_sent (r : sent) : option (list nat) :=
  match body_sent r with
  | Some b => option_map pipes b
  | None => None
  end.

(** [v] is a value [pipeThrough] accepts as a pipe. *)
Definition is_pipe (v : jsval) : bool :=
  match pipe_of v with
  | Some _ => true
  | None => false
  end.

(** The reasons the body stream was cancelled with. *)
Definition cancelled_with (calls : list stream_call) : list jsval :=
  flat_map (fun c => match c with Cancel reason => [reason] | _ => [] end) calls.

(** ** Inputs the statements are evaluated at *)

(** A class cannot be called without [new]: the call throws a
    [TypeError].  [server.js] builds every other [HTTPError] with [new] and
    tests [err instanceof HTTPError]. *)
Definition class_constructor_call : string -> Z -> jsval -> completion jsval :=
  fun _ _ _ => Throw (TypeError "Class constructor HTTPError cannot be invoked without 'new'").

(** Modelled from the spec: [HTTPError.js] is not among the sources.  The
    error-to-response mapping converts a structured error (message, HTTP
    status, optional cause) into a response-like value (status, headers,
    body): here a JSON response with the status of the error and its
    message as the body.  An [HTTPError] read as a plain object shows its
    status, and the default status is 500. *)
Definition demo_errors : HTTPError_module :=
  {| HTTPError_properties := fun _ code _ =>
       {| o_headers := None; o_body := None; o_status := Some code; o_statusText := None |};
     HTTPError_default_status := 500;
     HTTPError_response := fun message code _ =>
       VResponse {| status := code; statusText := "";
                    headers := [("content-type", "application/json")];
                    body := Some (Source [message] false) |};
     HTTPError_call := class_constructor_call |}.

(** The path of a URL of the demo server, whose origin has 21 characters. *)
Definition demo_path (url : string) : string :=
  String.substring 21 (String.length url - 21) url.

(** Stand-ins for the other collaborators: patterns that match a URL by
    prefix, modules without a default export, and an empty static root. *)
Definition demo : collaborators :=
  {| errors := demo_errors;
     URLPattern_test := fun source base url => String.prefix (base ++ source) url;
     resolveModulePath := fun module =>
       match module with
       | ModuleFunction f => TargetFunction f
       | ModulePath path => TargetSpecifier path
       end;
     import_ := fun specifier => ImportModule None;
     getFileURL := fun url root => {| file_href := "file://" ++ root ++ demo_path url;
                                      file_pathname := root ++ demo_path url |};
     existsSync := fun _ => false;
     resolveStaticPath := fun _ => Normal None;
     respondWithFile := fun _ => Throw (VError "Error" "ENOENT" VUndefined) |}.

Definition quiet : environment :=
  {| passed_at_start := None; during_hooks := []; during_import := [];
     during_resolveStaticPath := []; during_respondWithFile := [];
     during_settlement := []; during_postprocessors := [];
     during_postprocessors_again := [] |}.

Definition get_page : Request :=
  {| req_url := "http://localhost:8080/page"; req_has_body := false |}.

Definition ok_response : Response :=
  {| status := 200; statusText := "OK"; headers := [("content-type", "text/plain")];
     body := Some (Source ["hello"; "world"] false) |}.

Definition boom : jsval := VError "Error" "boom" VUndefined.

(** A preprocessor that answers the request itself through
    [context.resolve], and one whose promise rejects. *)
Definition answering_hook : preprocessor :=
  fun _ _ => ([CallResolve (VResponse ok_response)], HookFulfils).

Definition failing_hook : preprocessor :=
  fun _ _ => ([], HookRejects boom).

(** A preprocessor that is not an [async] function and throws. *)
Definition throwing_hook : preprocessor :=
  fun _ _ => ([], HookThrows (VError "Error" "thrown" VUndefined)).

Definition serve_with (hooks : list preprocessor) (table : list (string * route_module))
    (pps : list postprocessor) (passed : bool) : config :=
  {| staticRoot := "/srv"; base_url := "http://localhost:8080";
     routes := table; logger_is_function := true;
     requestPreprocessors := hooks; responsePostprocessors := pps;
     passedSignal_is_AbortSignal := passed |}.

(** The plain object [{ status: 201, body: 'ok' }], the response
    [new Response('ok', { status: 201 })], and a route handler that returns
    the object. *)
Definition created_object : ResponseLike :=
  {| o_headers := None; o_body := Some (BodyString "ok");
     o_status := Some 201; o_statusText := None |}.

Definition created_response : Response :=
  {| status := 201; statusText := "";
     headers := [("content-type", "text/plain;charset=UTF-8")];
     body := Some (Source ["ok"] false) |}.

Definition object_handler : handler :=
  {| h_source := "() => ({ status: 201, body: 'ok' })";
     h_call := fun _ _ => ([], Normal (VObject created_object)) |}.

Definition plain_context : Context :=
  {| ctx_url := "http://localhost:8080/page"; ctx_matches := None;
     ctx_signal := ControllerSignal |}.

(** Stand-ins whose patterns are read as [URLPattern] reads a pathname
    pattern against the base URL: ["/:id"] matches any path of one
    segment, a pattern without a leading slash is relative to the base,
    and any other pattern matches its own path.  With them, a request for
    the path ["/8"] and a handler for the route ["8"]. *)
Definition pathname_test (source base url : string) : bool :=
  if String.eqb source "/:id"
  then String.prefix (base ++ "/") url && negb (String.eqb url (base ++ "/"))
  else if String.prefix "/" source
  then String.eqb url (base ++ source)
  else String.eqb url (base ++ "/" ++ source).

Definition by_pathname : collaborators :=
  {| errors := demo_errors;
     URLPattern_test := pathname_test;
     resolveModulePath := resolveModulePath demo;
     import_ := import_ demo;
     getFileURL := getFileURL demo;
     existsSync := existsSync demo;
     resolveStaticPath := resolveStaticPath demo;
     respondWithFile := respondWithFile demo |}.

Definition get_item_8 : Request :=
  {| req_url := "http://localhost:8080/8"; req_has_body := false |}.

Definition eight_handler : handler :=
  {| h_source := "() => new Response('ok', { status: 201 })";
     h_call := fun _ _ => ([], Normal (VResponse created_response)) |}.

(** A handler that returns a [Response], the reason an external signal
    aborts with, [Response.error()] and a redirect. *)
Definition hello_handler : handler :=
  {| h_source := "() => new Response(body)";
     h_call := fun _ _ => ([], Normal (VResponse ok_response)) |}.

Definition abort_error : jsval :=
  VError "AbortError" "This operation was aborted" VUndefined.

Definition error_response : Response :=
  {| status := 0; statusText := ""; headers := []; body := None |}.

Definition socket_closed : request_state :=
  controller_abort (VString "Socket closed") (initial_state None).

(** A postprocessor that appends a mark to every chunk, and one that
    returns [null]. *)
Definition mark (tag : string) : list string -> list string :=
  map (fun c => (c ++ tag)%string).

Definition marking (id : nat) (tag : string) : postprocessor :=
  {| pp_id := id;
     pp_call := fun _ _ _ =>
       ([], Normal (VTransformStream {| ts_id := id; ts_run := mark tag |})) |}.

Definition returns_null : postprocessor :=
  {| pp_id := 7; pp_call := fun _ _ _ => ([], Normal VNull) |}.

(** Collaborators with one file under the static root. *)
Definition file_response : Response :=
  {| status := 200; statusText := ""; headers := [("content-type", "text/html")];
     body := Some (Source ["<h1>page</h1>"] false) |}.

Definition demo_with_file : collaborators :=
  {| errors := demo_errors;
     URLPattern_test := URLPattern_test demo;
     resolveModulePath := resolveModulePath demo;
     import_ := import_ demo;
     getFileURL := getFileURL demo;
     existsSync := fun href => String.eqb href "file:///srv/page";
     resolveStaticPath := fun pathname => Normal (Some (pathname ++ "/index.html")%string);
     respondWithFile := fun _ => Normal (VResponse file_response) |}.

(** The transforms among the results of the postprocessors, in the order
    of the postprocessors; a body piped through a list of transforms with a
    signal; and what a list of transforms makes of the chunks of a body. *)
Definition kept_transforms (results : list settled_result) : list Transform :=
  flat_map (fun r => match pipe_of (result_value r) with
                     | Some t => [t]
                     | None => []
                     end) results.

Definition chained (signal : signal_id) (s : ReadableStream) (ts : list Transform)
    : ReadableStream :=
  fold_left (fun acc t => PipeThrough acc t signal) ts s.

Definition transformed (chunks : list string) (ts : list Transform) : list string :=
  fold_left (fun acc t => ts_run t acc) ts chunks.

(** [new Response(null, { status: 200 })], what the defaults of line 147
    build; and the objects among the values that have none of the
    properties [headers], [body], [status], [statusText]. *)
Definition empty_ok : Response :=
  {| status := 200; statusText := ""; headers := []; body := None |}.

Definition is_URL_or_Error (v : jsval) : bool :=
  match v with
  | VURL _ | VError _ _ _ | VAggregateError _ => true
  | _ => false
  end.

(** A handler that returns a [URL]. *)
Definition redirecting_handler : handler :=
  {| h_source := "() => new URL(target)";
     h_call := fun _ _ => ([], Normal (VURL "http://localhost:8080/new")) |}.

(** The test of [getArg] on a flag. *)
Definition matches (f : flag) (arg : string) : bool :=
  match f with
  | Flags names => includes names arg
  | Flag name => String.eqb name arg
  end.

(** A piece without an equals sign: [split('=')] leaves it whole. *)
Definition no_equals (s : string) : Prop := split_equals s = [s].

(** A stand-in for [parseInt] on the strings of the examples, and a
    command line. *)
Definition demo_parseInt (s : string) : option Z :=
  if String.eqb s "8000" then Some 8000
  else if String.eqb s "9000" then Some 9000
  else None.

Definition demo_argv : list string :=
  ["node"; "cli.js"; "--static=/srv/www=old"; "-l"; "--port"; "9000"; "-h"].

(** A stand-in for [URL.parse] and for the [URL] constructor on the URLs of
    the examples. *)
Definition demo_URL_parse (s : string) : option (string * string) :=
  if String.prefix "http://" s then Some ("http:", s)
  else if String.prefix "file://" s then Some ("file:", s)
  else None.

Definition demo_URL_href (pathname base : string) : completion string :=
  Normal (base ++ pathname)%string.



(** The delay the script hands to [AbortSignal.timeout], and the delays it
    refuses. *)
Definition timeout_value (parseInt : string -> option Z) (args : list string) : Z :=
  or_zero match getArg args (Flags ["-t"; "--timeout"]) (Some "0") with
          | Some s => parseInt s
          | None => None
          end.

Definition out_of_range (milliseconds : Z) : bool :=
  (milliseconds <? 0) || (4294967295 <? milliseconds).
(** * Properties *)

(** ** Settlement *)

Lemma initial_state_consistent passed : consistent (initial_state passed).
Proof. unfold consistent; simpl; tauto. Qed.

Lemma run_event_consistent st e : consistent st -> consistent (run_event st e).
Proof.
  unfold consistent. intros [H1 H2].
  destruct e; simpl; unfold resolve, reject, controller_abort, passed_abort;
    try (simpl; tauto);
    destruct (settled st) eqn:S; simpl.
  - rewrite S. tauto.
  - rewrite (H1 eq_refl). simpl. split; discriminate.
  - rewrite S. tauto.
  - rewrite (H1 eq_refl). simpl. split; discriminate.
Qed.

Lemma run_events_consistent es : forall st, consistent st -> consistent (run_events es st).
Proof.
  unfold run_events. induction es as [|e es IH]; simpl; intros st H; [exact H|].
  apply IH, run_event_consistent, H.
Qed.

Lemma resolve_unsettled v st :
  settled st = false -> promise st = Pending ->
  promise (resolve v st) = Fulfilled v /\ settled (resolve v st) = true.
Proof. unfold resolve. intros -> ->. simpl. split; reflexivity. Qed.

Lemma reject_unsettled v st :
  settled st = false -> promise st = Pending ->
  promise (reject v st) = Rejected v /\ settled (reject v st) = true.
Proof. unfold reject. intros -> ->. simpl. split; reflexivity. Qed.

Lemma resolve_settled v st : settled st = true -> resolve v st = st.
Proof. unfold resolve. intros ->. reflexivity. Qed.

Lemma reject_settled v st : settled st = true -> reject v st = st.
Proof. unfold reject. intros ->. reflexivity. Qed.

Lemma run_events_settled es : forall st,
  settled st = true ->
  settled (run_events es st) = true /\ promise (run_events es st) = promise st.
Proof.
  unfold run_events. induction es as [|e es IH]; simpl; intros st H; [tauto|].
  destruct e; simpl.
  - rewrite (resolve_settled _ _ H). apply IH, H.
  - rewrite (reject_settled _ _ H). apply IH, H.
  - destruct (IH (controller_abort reason st) H) as [A B]. rewrite A, B. tauto.
  - destruct (IH (passed_abort reason st) H) as [A B]. rewrite A, B. tauto.
Qed.

Lemma run_events_first_call es : forall st,
  settled st = false -> promise st = Pending ->
  promise (run_events es st) = match first_call es with Some o => o | None => Pending end
  /\ settled (run_events es st) = match first_call es with Some _ => true | None => false end.
Proof.
  unfold run_events. induction es as [|e es IH]; simpl; intros st S P; [tauto|].
  destruct e; simpl.
  - destruct (resolve_unsettled result st S P) as [A B].
    destruct (run_events_settled es _ B) as [C D]. unfold run_events in C, D.
    rewrite C, D, A. tauto.
  - destruct (reject_unsettled reason st S P) as [A B].
    destruct (run_events_settled es _ B) as [C D]. unfold run_events in C, D.
    rewrite C, D, A. tauto.
  - apply IH; assumption.
  - apply IH; assumption.
Qed.

Lemma run_events_app es1 es2 st :
  run_events (es1 ++ es2) st = run_events es2 (run_events es1 st).
Proof. unfold run_events. apply fold_left_app. Qed.

(** C2. Settlement happens exactly once.  Whatever sequence of events a
    request sees from its arrival on, calls of [resolve] and [reject] in any
    order and number (with aborts in between), its promise ends with the
    argument of the first of these calls: fulfilled with it when that call
    was [resolve], rejected with it when it was [reject], and still pending
    when there was none.  Once one call has been made, any further call of
    [resolve] or [reject] leaves every request variable as it was. *)
Theorem settlement_exactly_once (passed : option jsval) (es : list event) :
  promise (run_events es (initial_state passed))
    = match first_call es with Some o => o | None => Pending end
  /\ (forall e, first_call es <> None -> is_callback e = true ->
        run_events (es ++ [e]) (initial_state passed)
          = run_events es (initial_state passed)).
Proof.
  destruct (run_events_first_call es (initial_state passed) eq_refl eq_refl) as [P S].
  split; [exact P|].
  intros e Hsome He. rewrite run_events_app.
  destruct (first_call es); [|congruence].
  destruct e; try discriminate; unfold run_events at 1; simpl.
  - apply resolve_settled, S.
  - apply reject_settled, S.
Qed.

(** ** Route selection *)

(** An object literal without repeated keys has the properties it
    defines, in the order it defines them. *)
Lemma put_entry_fresh {A : Type} k (v : A) l :
  ~ In k (map fst l) -> put_entry k v l = l ++ [(k, v)].
Proof.
  induction l as [|[k' v'] l IH]; simpl; intro N; [reflexivity|].
  destruct (String.eqb k' k) eqn:K.
  - exfalso. apply N. left. now apply String.eqb_eq.
  - rewrite IH; [reflexivity|]. intro H. apply N. now right.
Qed.

Lemma own_properties_distinct {A : Type} (o : list (string * A)) :
  NoDup (map fst o) -> own_properties o = o.
Proof.
  unfold own_properties.
  assert (G : forall acc, NoDup (map fst (acc ++ o)) ->
            fold_left (fun acc kv => put_entry (fst kv) (snd kv) acc) o acc = acc ++ o).
  { induction o as [|[k v] o IH]; simpl; intros acc ND; [now rewrite app_nil_r|].
    rewrite put_entry_fresh.
    - rewrite IH; rewrite <- app_assoc; [reflexivity|exact ND].
    - rewrite map_app in ND. simpl in ND. apply NoDup_remove_2 in ND.
      intro H. apply ND, in_or_app. now left. }
  intro ND. exact (G [] ND).
Qed.

(** Keys that are not array indices are listed in the order they were
    defined. *)
Lemma Object_entries_declared {A : Type} (o : list (string * A)) :
  NoDup (map fst o) ->
  (forall key, In key (map fst o) -> array_index key = None) ->
  Object_entries o = o.
Proof.
  intros ND N. unfold Object_entries. rewrite (own_properties_distinct o ND).
  assert (I : forall acc,
            fold_left (fun acc (kv : string * A) =>
                         match array_index (fst kv) with
                         | Some i => insert_by_index i kv acc
                         | None => acc
                         end) o acc = acc).
  { clear ND. induction o as [|[k v] o IH]; simpl; intro acc; [reflexivity|].
    rewrite (N k) by (simpl; now left).
    apply IH. intros key H. apply N. simpl. now right. }
  rewrite I. simpl.
  clear ND I. induction o as [|[k v] o IH]; simpl; [reflexivity|].
  rewrite (N k) by (simpl; now left).
  f_equal. apply IH. intros key H. apply N. simpl. now right.
Qed.

Section RouteTable.

Variable X : collaborators.

(** An entry of the table comes from an entry of the object, and the
    entries before it from the entries before that one. *)
Lemma build_ROUTES_split entries base : forall next before' p t after',
  build_ROUTES X entries base next = before' ++ (p, t) :: after' ->
  exists before module after,
    entries = before ++ (pat_source p, module) :: after
    /\ before' = build_ROUTES X before base next
    /\ t = resolveModulePath X module
    /\ pat_base p = base.
Proof.
  induction entries as [|[k m] rest IH]; simpl; intros next before' p t after' E.
  - destruct before'; discriminate.
  - destruct before' as [|b before']; simpl in E; inversion E; subst.
    + exists [], m, rest. simpl. repeat split; reflexivity.
    + destruct (IH _ _ _ _ _ H1) as (before & module & after & E1 & E2 & E3 & E4).
      exists ((k, m) :: before), module, after. subst. simpl. repeat split; reflexivity.
Qed.

(** Every entry of the object has its pattern in the table. *)
Lemma build_ROUTES_keys entries base key module : forall next,
  In (key, module) entries ->
  exists q, In q (map fst (build_ROUTES X entries base next))
            /\ pat_source q = key /\ pat_base q = base.
Proof.
  induction entries as [|[k m] rest IH]; simpl; intros next H; [contradiction|].
  destruct H as [H|H].
  - inversion H; subst. eexists. split; [left; reflexivity|]. simpl. split; reflexivity.
  - destruct (IH (S next) H) as (q & Hq & S1 & S2).
    exists q. split; [right; exact Hq|]. split; assumption.
Qed.

Lemma build_ROUTES_ids entries base : forall next,
  map (fun entry => pat_id (fst entry)) (build_ROUTES X entries base next)
    = seq next (List.length entries).
Proof.
  induction entries as [|[pattern module] rest IH]; simpl; intro next; [reflexivity|].
  now rewrite IH.
Qed.

Lemma ROUTES_ids_NoDup cfg :
  NoDup (map (fun entry => pat_id (fst entry)) (ROUTES X cfg)).
Proof. unfold ROUTES. rewrite build_ROUTES_ids. apply seq_NoDup. Qed.

(** A lookup by identity finds the entry the key came from. *)
Lemma ROUTES_get_entry (table : list (URLPattern * target)) : forall before p t after,
  NoDup (map (fun entry => pat_id (fst entry)) table) ->
  table = before ++ (p, t) :: after ->
  ROUTES_get table p = Some t.
Proof.
  unfold ROUTES_get. induction table as [|[q u] rest IH]; intros before p t after ND E.
  - destruct before; discriminate.
  - destruct before as [|b before]; simpl in E; inversion E; subst.
    + simpl. now rewrite Nat.eqb_refl.
    + simpl in *. inversion ND as [|? ? Hnot ND']; subst.
      destruct (Nat.eqb (pat_id q) (pat_id p)) eqn:Q.
      * exfalso. apply Hnot. apply Nat.eqb_eq in Q. rewrite Q.
        rewrite map_app. apply in_or_app. right. simpl. now left.
      * apply (IH before p t after ND' eq_refl).
Qed.

(** [find] returns the first element that passes, with the part of the
    list before it. *)
Lemma find_pattern_first (table : list (URLPattern * target)) url :
  match find_pattern X table url with
  | Some p =>
      exists before t after,
        table = before ++ (p, t) :: after
        /\ test X p url = true
        /\ forall q, In q (map fst before) -> test X q url = false
  | None => forall q, In q (map fst table) -> test X q url = false
  end.
Proof.
  unfold find_pattern. induction table as [|[q u] rest IH]; simpl.
  - intros q [].
  - destruct (test X q url) eqn:T.
    + exists [], u, rest. simpl. repeat split; [exact T|]. intros ? [].
    + destruct (find (fun pattern => test X pattern url) (map fst rest)) as [p|].
      * destruct IH as (before & t & after & E & Tp & Hb).
        exists ((q, u) :: before), t, after. simpl. rewrite E.
        repeat split; [exact Tp|]. intros q' [<-|Hin]; [exact T|]. now apply Hb.
      * intros q' [<-|Hin]; [exact T|]. now apply IH.
Qed.

End RouteTable.

(** ** The request handler up to route resolution *)

Lemma run_events_any_follows es : forall st, any_follows st -> any_follows (run_events es st).
Proof.
  unfold run_events. induction es as [|e es IH]; simpl; intros st H; [exact H|].
  apply IH. unfold any_follows in *.
  destruct e; simpl; unfold resolve, reject;
    try (destruct (settled st); simpl; exact H).
  - right. destruct (any_signal st); simpl; discriminate.
  - destruct H as [H|H]; [now left|right].
    destruct (any_signal st); simpl; [discriminate|congruence].
Qed.

Section UpToResolution.

Variable X : collaborators.

Lemma state_after_hooks_any_follows cfg env request :
  any_follows (state_after_hooks X cfg env request).
Proof.
  unfold state_after_hooks. apply run_events_any_follows.
  unfold any_follows, arrival. now left.
Qed.

Lemma state_after_hooks_consistent cfg env request :
  consistent (state_after_hooks X cfg env request).
Proof.
  unfold state_after_hooks. apply run_events_consistent, initial_state_consistent.
Qed.

Lemma not_aborted_controller cfg env request :
  aborted (state_after_hooks X cfg env request) (request_signal cfg) = false ->
  controller_signal (state_after_hooks X cfg env request) = None.
Proof.
  unfold aborted, request_signal, signal_state.
  destruct (passedSignal_is_AbortSignal cfg).
  - destruct (state_after_hooks_any_follows cfg env request) as [H|H]; [now intros|].
    destruct (any_signal (state_after_hooks X cfg env request)); [discriminate|congruence].
  - destruct (controller_signal (state_after_hooks X cfg env request));
      [discriminate|reflexivity].
Qed.

(** Past the checks of lines 247-255 the handler resolves the route. *)
Lemma settle_request_at_resolution cfg env request :
  reaches_resolution X cfg env request = true ->
  settle_request X cfg env request =
    match find_pattern X (ROUTES X cfg) (req_url request) with
    | Some p =>
        let moduleSpecifier :=
          match ROUTES_get (ROUTES X cfg) p with
          | Some t => t
          | None => TargetSpecifier "undefined"
          end in
        (fst (run_route X moduleSpecifier env request (request_context X cfg request)
                (state_after_hooks X cfg env request)),
         snd (fst (fan_out X cfg request))
           ++ snd (run_route X moduleSpecifier env request (request_context X cfg request)
                     (state_after_hooks X cfg env request)))
    | None =>
        let fileURL := getFileURL X (req_url request) (staticRoot cfg) in
        if existsSync X (file_href fileURL)
        then
          (fst (run_static X fileURL env request (state_after_hooks X cfg env request)),
           snd (fst (fan_out X cfg request)) ++ ExistsSync (file_href fileURL)
             :: snd (run_static X fileURL env request (state_after_hooks X cfg env request)))
        else (reject (not_found request) (state_after_hooks X cfg env request),
              snd (fst (fan_out X cfg request)) ++ [ExistsSync (file_href fileURL)])
    end.
Proof.
  intro R. pose proof (not_aborted_controller cfg env request) as C.
  unfold reaches_resolution in R. unfold settle_request.
  unfold state_after_hooks, fan_out, request_context, arrival in *.
  destruct (call_hooks (requestPreprocessors cfg) 0 request
              (context_of (find_pattern X (ROUTES X cfg) (req_url request)) request))
    as [[effects called] results].
  simpl in *. destruct results as [results|e]; [|discriminate].
  destruct (rejected_reasons results); [|discriminate]. simpl.
  apply andb_true_iff in R. destruct R as [A S].
  apply negb_true_iff in A. rewrite (C A).
  unfold aborted in A.
  destruct (signal_state _ (request_signal cfg)); [discriminate|].
  rewrite S.
  destruct (find_pattern X (ROUTES X cfg) (req_url request)) as [p|].
  - destruct (run_route X _ env request _ _). reflexivity.
  - simpl. destruct (existsSync X _); [|reflexivity].
    destruct (run_static X _ env request _). reflexivity.
Qed.

End UpToResolution.

Lemma static_lookups_app a b : static_lookups (a ++ b) = static_lookups a ++ static_lookups b.
Proof. unfold static_lookups. apply flat_map_app. Qed.

Lemma route_steps_app a b : route_steps (a ++ b) = route_steps a ++ route_steps b.
Proof. unfold route_steps. apply filter_app. Qed.

(** The fan-out calls hooks and nothing else. *)
Lemma call_hooks_steps hooks request context : forall index,
  static_lookups (snd (fst (call_hooks hooks index request context))) = []
  /\ route_steps (snd (fst (call_hooks hooks index request context))) = [].
Proof.
  induction hooks as [|plugin rest IH]; simpl; intro index; [tauto|].
  destruct (plugin request context) as [effects result].
  specialize (IH (S index)).
  destruct (call_hooks rest (S index) request context) as [[effects' steps] results].
  destruct result; simpl in *; tauto.
Qed.

Section Resolution.

Variable X : collaborators.

Lemma call_handler_steps f specifier request context st :
  static_lookups (snd (call_handler f specifier request context st)) = [].
Proof.
  unfold call_handler. destruct (h_call f request context). reflexivity.
Qed.

(** The branch of a matched route never asks for a static file. *)
Lemma run_route_no_static moduleSpecifier env request context st :
  static_lookups (snd (run_route X moduleSpecifier env request context st)) = [].
Proof.
  unfold run_route. destruct moduleSpecifier as [f|s].
  - apply call_handler_steps.
  - destruct (import_ X s) as [err|[f|]]; simpl.
    + destruct (instanceof_Error err); [reflexivity|]. destruct err; reflexivity.
    + pose proof (call_handler_steps f s request context (run_events (during_import env) st)) as H.
      destruct (call_handler f s request context (run_events (during_import env) st)).
      exact H.
    + reflexivity.
Qed.

(** The branch of a static file neither imports nor calls a route target. *)
Lemma run_static_no_route fileURL env request st :
  static_lookups (snd (run_static X fileURL env request st)) = []
  /\ route_steps (snd (run_static X fileURL env request st)) = [].
Proof.
  unfold run_static.
  destruct (resolveStaticPath X (file_pathname fileURL)) as [[resolved|]|e]; simpl; tauto.
Qed.

End Resolution.

(** C4 (as amended). Routes are tried in the order of
    [Object.entries(routes)], against the full URL of the request: the keys
    of the [routes] object that are array indices first, in ascending
    numeric order, then the other keys in the order they were declared; for
    a [routes] object without repeated keys and without array-index keys
    this is the order of declaration.  The pattern selected is the one
    built from the first entry, in that order, whose [test] passes: every
    entry before it fails the test, whatever the entries after it do, and
    the target looked up for it is what [resolveModulePath] makes of the
    module of that entry; once the handler gets to route resolution, that
    target is what it runs, and [existsSync] is not consulted.  When no
    entry passes, the handler that gets to route resolution asks
    [existsSync] about the file URL of the request and neither imports nor
    calls a route target. *)
Theorem first_matching_route_wins (X : collaborators) (cfg : config)
    (env : environment) (request : Request) :
  (NoDup (map fst (routes cfg)) ->
   (forall key, In key (map fst (routes cfg)) -> array_index key = None) ->
   Object_entries (routes cfg) = routes cfg)
  /\ match find_pattern X (ROUTES X cfg) (req_url request) with
     | Some p =>
         exists before module after,
           Object_entries (routes cfg) = before ++ (pat_source p, module) :: after
           /\ pat_base p = base_url cfg
           /\ URLPattern_test X (pat_source p) (base_url cfg) (req_url request) = true
           /\ (forall key m, In (key, m) before ->
                 URLPattern_test X key (base_url cfg) (req_url request) = false)
           /\ ROUTES_get (ROUTES X cfg) p = Some (resolveModulePath X module)
           /\ (reaches_resolution X cfg env request = true ->
               settle_request X cfg env request
                 = (fst (run_route X (resolveModulePath X module) env request
                           (request_context X cfg request)
                           (state_after_hooks X cfg env request)),
                    snd (fst (fan_out X cfg request))
                      ++ snd (run_route X (resolveModulePath X module) env request
                                (request_context X cfg request)
                                (state_after_hooks X cfg env request)))
               /\ static_lookups (snd (settle_request X cfg env request)) = [])
     | None =>
         (forall key m, In (key, m) (Object_entries (routes cfg)) ->
            URLPattern_test X key (base_url cfg) (req_url request) = false)
         /\ (reaches_resolution X cfg env request = true ->
             static_lookups (snd (settle_request X cfg env request))
               = [file_href (getFileURL X (req_url request) (staticRoot cfg))]
             /\ route_steps (snd (settle_request X cfg env request)) = [])
     end.
Proof.
  split; [apply Object_entries_declared|].
  pose proof (find_pattern_first X (ROUTES X cfg) (req_url request)) as F.
  pose proof (settle_request_at_resolution X cfg env request) as R.
  pose proof (call_hooks_steps (requestPreprocessors cfg) request
                (request_context X cfg request) 0) as [H1 H2].
  fold (fan_out X cfg request) in H1, H2.
  destruct (find_pattern X (ROUTES X cfg) (req_url request)) as [p|].
  - destruct F as (before' & t & after' & E & T & B).
    pose proof (ROUTES_get_entry (ROUTES X cfg) before' p t after'
                  (ROUTES_ids_NoDup X cfg) E) as G.
    unfold ROUTES in E.
    destruct (build_ROUTES_split X _ _ _ _ _ _ _ E)
      as (before & module & after & E1 & E2 & E3 & E4).
    exists before, module, after. subst t.
    split; [exact E1|]. split; [exact E4|].
    split; [unfold test in T; rewrite E4 in T; exact T|].
    split.
    { intros key m Hin.
      destruct (build_ROUTES_keys X before (base_url cfg) key m 0 Hin) as (q & Hq & S1 & S2).
      rewrite <- E2 in Hq. specialize (B q Hq). unfold test in B.
      rewrite S1, S2 in B. exact B. }
    split; [exact G|].
    intro H. rewrite (R H), G. split; [reflexivity|].
    simpl. rewrite static_lookups_app, H1, run_route_no_static. reflexivity.
  - split.
    + intros key m Hin.
      destruct (build_ROUTES_keys X _ (base_url cfg) key m 0 Hin) as (q & Hq & S1 & S2).
      fold (ROUTES X cfg) in Hq. specialize (F q Hq). unfold test in F.
      rewrite S1, S2 in F. exact F.
    + intro H. rewrite (R H). simpl.
      destruct (existsSync X _); simpl.
      * destruct (run_static_no_route X (getFileURL X (req_url request) (staticRoot cfg))
                    env request (state_after_hooks X cfg env request)) as [S1 S2].
        rewrite static_lookups_app, route_steps_app, H1, H2. simpl. rewrite S1, S2.
        split; reflexivity.
      * rewrite static_lookups_app, route_steps_app, H1, H2. simpl. split; reflexivity.
Qed.

(** C4 as stated fails for a key that is an array index: ["8"] is declared
    after ["/:id"], both patterns match the URL, and the handler of ["8"]
    is the one that answers. *)
Lemma index_like_route_is_tried_first :
  let table := [("/:id", ModuleFunction hello_handler);
                ("8", ModuleFunction eight_handler)] in
  let cfg := serve_with [] table [] false in
  map fst (routes cfg) = ["/:id"; "8"]
  /\ URLPattern_test by_pathname "/:id" (base_url cfg) (req_url get_item_8) = true
  /\ URLPattern_test by_pathname "8" (base_url cfg) (req_url get_item_8) = true
  /\ map fst (Object_entries (routes cfg)) = ["8"; "/:id"]
  /\ snd (settle_request by_pathname cfg quiet get_item_8)
     = [CalledHandler (h_source eight_handler)]
  /\ promise (fst (settle_request by_pathname cfg quiet get_item_8))
     = Fulfilled (VResponse created_response)
  /\ promise (fst (settle_request by_pathname cfg quiet get_item_8))
     <> Fulfilled (VResponse ok_response).
Proof.
  cbv zeta. repeat split; try reflexivity. discriminate.
Qed.

(** ** Preprocessors *)

(** When no hook throws, every hook is called and has its entry, in the
    order of the list. *)
Lemma call_hooks_normal hooks request context : forall index,
  (forall plugin e, In plugin hooks -> snd (plugin request context) <> HookThrows e) ->
  snd (call_hooks hooks index request context)
    = Normal (map (fun plugin => allSettled_hook (snd (plugin request context))) hooks)
  /\ snd (fst (call_hooks hooks index request context))
    = map CalledHook (seq index (List.length hooks)).
Proof.
  induction hooks as [|plugin rest IH]; simpl; intros index H; [tauto|].
  pose proof (H plugin) as Hp.
  destruct (plugin request context) as [effects result] eqn:P. simpl in Hp.
  destruct (IH (S index)) as [A B]; [intros q e Hq; apply H; now right|].
  destruct (call_hooks rest (S index) request context) as [[effects' steps] results].
  simpl in A, B. subst.
  destruct result; simpl; try tauto.
  exfalso. apply (Hp e); [now left|reflexivity].
Qed.

(** C3 (as amended). Let every preprocessor of a request return (none
    throws in the call itself), let K >= 1 of the promises reject, and let
    the fan-out end with the signal not aborted and with neither settlement
    callback called yet.  Then all N preprocessors were called, in order,
    and the handler rejects the request: with the one rejection reason when
    K = 1, and with an [AggregateError] whose [errors] are the K reasons in
    the order of the preprocessors when K > 1. *)
Theorem preprocessor_failures_reject (X : collaborators) (cfg : config)
    (env : environment) (request : Request) :
  let context := request_context X cfg request in
  let hookErrs :=
    rejected_reasons
      (map (fun plugin => allSettled_hook (snd (plugin request context)))
         (requestPreprocessors cfg)) in
  (forall plugin e, In plugin (requestPreprocessors cfg) ->
     snd (plugin request context) <> HookThrows e) ->
  hookErrs <> [] ->
  aborted (state_after_hooks X cfg env request) (request_signal cfg) = false ->
  settled (state_after_hooks X cfg env request) = false ->
  promise (fst (settle_request X cfg env request))
    = Rejected (match hookErrs with
                | [err] => err
                | _ => VAggregateError hookErrs
                end)
  /\ snd (settle_request X cfg env request)
       = map CalledHook (seq 0 (List.length (requestPreprocessors cfg))).
Proof.
  intros context hookErrs NoThrow K A S.
  destruct (call_hooks_normal (requestPreprocessors cfg) request context 0 NoThrow)
    as [R C].
  destruct (state_after_hooks_consistent X cfg env request) as [P _].
  specialize (P S).
  unfold settle_request. unfold state_after_hooks, fan_out, arrival in A, S, P.
  fold (request_context X cfg request). fold context in A, S, P |- *.
  unfold aborted in A.
  destruct (call_hooks (requestPreprocessors cfg) 0 request context)
    as [[effects called] results].
  simpl in *. subst results called. fold hookErrs.
  destruct (signal_state _ (request_signal cfg)); [discriminate|].
  destruct hookErrs as [|err [|err' more]]; [congruence| |]; simpl;
    (split; [|reflexivity]); apply reject_unsettled; assumption.
Qed.

(** At a request with one rejecting preprocessor out of two, the
    hypotheses hold and the request is rejected with that reason. *)
Lemma preprocessor_failures_reject_witness :
  promise (fst (settle_request demo
                  (serve_with [fun _ _ => ([], HookFulfils); failing_hook] [] [] false)
                  quiet get_page))
    = Rejected boom
  /\ snd (settle_request demo
            (serve_with [fun _ _ => ([], HookFulfils); failing_hook] [] [] false)
            quiet get_page)
     = [CalledHook 0; CalledHook 1].
Proof.
  apply (preprocessor_failures_reject demo
           (serve_with [fun _ _ => ([], HookFulfils); failing_hook] [] [] false)
           quiet get_page).
  - intros plugin e [<-|[<-|[]]]; discriminate.
  - discriminate.
  - reflexivity.
  - reflexivity.
Defined.

(** C3 as stated fails: two preprocessors run, exactly one of them fails,
    the signal is not aborted, and the request is not rejected, because the
    other preprocessor had called [context.resolve] and the [reject] of
    line 250 found the request settled. *)
Lemma preprocessor_failure_after_settlement :
  let cfg := serve_with [answering_hook; failing_hook] [] [] false in
  snd (settle_request demo cfg quiet get_page) = [CalledHook 0; CalledHook 1]
  /\ snd (fan_out demo cfg get_page)
       = Normal [SFulfilled VUndefined; SRejected boom]
  /\ aborted (state_after_hooks demo cfg quiet get_page) (request_signal cfg) = false
  /\ promise (fst (settle_request demo cfg quiet get_page))
       = Fulfilled (VResponse ok_response)
  /\ promise (fst (settle_request demo cfg quiet get_page)) <> Rejected boom.
Proof.
  cbv zeta. repeat split; try reflexivity. discriminate.
Qed.

(** A preprocessor that throws in the call itself ends the [map] of line
    244: the [catch] of line 295 rejects the request with what it threw,
    alone, whatever the promises of the preprocessors called before it
    do. *)
Example preprocessor_throws_in_the_call :
  let cfg := serve_with [failing_hook; throwing_hook; failing_hook] [] [] false in
  snd (settle_request demo cfg quiet get_page) = [CalledHook 0; CalledHook 1]
  /\ promise (fst (settle_request demo cfg quiet get_page))
       = Rejected (VError "Error" "thrown" VUndefined).
Proof. cbv zeta. split; reflexivity. Qed.

(** ** What a handler returns, and what [_send] is handed *)

Lemma Response_new_status b code text init r :
  Response_new b code text init = Normal r ->
  status r = ToUint16 code /\ 200 <= status r <= 599.
Proof.
  unfold Response_new. destruct (extract b) as [extracted|e]; [|discriminate].
  cbn [bind].
  destruct ((ToUint16 code <? 200) || (599 <? ToUint16 code)) eqn:Range; [discriminate|].
  apply orb_false_iff in Range. destruct Range as [Lo Hi].
  apply Z.ltb_ge in Lo. apply Z.ltb_ge in Hi.
  destruct (negb (is_reason_phrase text)); [discriminate|].
  destruct (Headers_fill init []) as [h|e]; [|discriminate]. cbn [bind].
  destruct extracted as [[stream type]|].
  - destruct (null_body_status (ToUint16 code)); [discriminate|].
    intro H; inversion H; simpl. lia.
  - intro H; inversion H; simpl. lia.
Qed.

Lemma Response_new_string_body s code text init r :
  Response_new (BodyString s) code text init = Normal r ->
  option_map read_all (body r) = Some (if String.eqb s "" then [] else [s]).
Proof.
  unfold Response_new. cbn [extract bind].
  destruct ((ToUint16 code <? 200) || (599 <? ToUint16 code)); [discriminate|].
  destruct (negb (is_reason_phrase text)); [discriminate|].
  destruct (Headers_fill init []) as [h|e]; [|discriminate]. cbn [bind].
  destruct (null_body_status (ToUint16 code)); [discriminate|].
  intro H; inversion H; simpl. reflexivity.
Qed.

(** C1 (as amended). A route handler that returns a plain object, such as
    [{ status: 201, body: 'ok' }], and has not settled the request itself,
    makes the handler of the request reject it with the [TypeError]
    "<specifier> did not return a response."  It is [_send] that
    normalizes a plain object: handed the object [o] as the outcome (one
    passed to [context.resolve]), it does what it does for the response
    [new Response(body, { status, statusText, headers })] built from the
    properties of [o], when the constructor accepts them.  The status of
    that response is the [status] of [o] (200 when absent) as the
    constructor reads it, an unsigned 16-bit value: the status itself when
    it lies in 200..599, and for instance 201 for 65737; its body, for a
    string [body], is that string. *)
Theorem returned_object_rejected_sent_object_normalized
    (E : HTTPError_module) (f : handler) (specifier : string) (request : Request)
    (context : Context) (st : request_state) (o : ResponseLike) (r : Response)
    (m : ServerResponse) (pps : list postprocessor) (request' : option Request)
    (st' : request_state) (during : list event) :
  snd (h_call f request context) = Normal (VObject o) ->
  first_call (fst (h_call f request context)) = None ->
  settled st = false ->
  promise st = Pending ->
  Response_of o = Normal r ->
  promise (fst (call_handler f specifier request context st))
    = Rejected (TypeError (specifier ++ " did not return a response."))
  /\ _send E (VObject o) m pps context request' st' during
       = _send E (VResponse r) m pps context request' st' during
  /\ status r = ToUint16 (match o_status o with Some c => c | None => 200 end)
  /\ 200 <= status r <= 599
  /\ (200 <= match o_status o with Some c => c | None => 200 end <= 599 ->
      status r = match o_status o with Some c => c | None => 200 end)
  /\ (forall s, o_body o = Some (BodyString s) ->
        option_map read_all (body r) = Some (if String.eqb s "" then [] else [s])).
Proof.
  intros Hret Hcalls S P R.
  assert (St : status r = ToUint16 (match o_status o with Some c => c | None => 200 end)
               /\ 200 <= status r <= 599).
  { unfold Response_of in R. apply (Response_new_status _ _ _ _ _ R). }
  split; [|split; [|split; [|split; [|split]]]].
  - unfold call_handler. destruct (h_call f request context) as [effects result].
    simpl in *. subst result. simpl.
    destruct (run_events_first_call effects st S P) as [P1 S1].
    rewrite Hcalls in P1, S1.
    apply reject_unsettled; assumption.
  - unfold _send. destruct (signal_state st' (ctx_signal context)); [reflexivity|].
    simpl. unfold send_object. simpl. rewrite R. reflexivity.
  - apply St.
  - apply St.
  - intro Range. destruct St as [St _]. rewrite St. unfold ToUint16.
    apply Z.mod_small. lia.
  - intros s B. unfold Response_of in R. rewrite B in R.
    apply (Response_new_string_body _ _ _ _ _ R).
Qed.

(** The object [{ status: 201, body: 'ok' }]: returned by a handler it is
    rejected; handed to [_send] it is sent as the response with status 201
    and body "ok". *)
Lemma returned_object_rejected_sent_object_normalized_witness :
  promise (fst (call_handler object_handler "/routes/page.js" get_page plain_context
                  (initial_state None)))
    = Rejected (TypeError "/routes/page.js did not return a response.")
  /\ _send demo_errors (VObject created_object) fresh_message [] plain_context
       (Some get_page) (initial_state None) []
     = _send demo_errors (VResponse created_response) fresh_message [] plain_context
         (Some get_page) (initial_state None) []
  /\ status created_response
     = ToUint16 (match o_status created_object with Some c => c | None => 200 end)
  /\ 200 <= status created_response <= 599
  /\ (200 <= match o_status created_object with Some c => c | None => 200 end <= 599 ->
      status created_response
        = match o_status created_object with Some c => c | None => 200 end)
  /\ (forall s, o_body created_object = Some (BodyString s) ->
        option_map read_all (body created_response)
          = Some (if String.eqb s "" then [] else [s])).
Proof.
  apply (returned_object_rejected_sent_object_normalized demo_errors object_handler
           "/routes/page.js" get_page plain_context (initial_state None)
           created_object created_response fresh_message [] (Some get_page)
           (initial_state None) []); reflexivity.
Defined.

(** What [_send] writes for the object: the status line 201, the chunk
    "ok", and the end of the message. *)
Example sent_object_on_the_wire :
  let r := _send demo_errors (VObject created_object) fresh_message [] plain_context
             (Some get_page) (initial_state None) [] in
  thrown r = None
  /\ head_calls (message r) = [(201, Some "")]
  /\ write_calls (message r) = [Chunk "ok"]
  /\ end_calls (message r) = 1%nat.
Proof. cbv zeta. repeat split; reflexivity. Qed.

(** The constructor reads the status as an unsigned 16-bit value and
    checks what it is given: the object [{ status: 65737, body: 'ok' }] is
    sent as the response with status 201, a status of 99 is a [RangeError],
    and a header name with a space or a status text with a line feed is a
    [TypeError], thrown by [_send] before anything is written. *)
Example object_as_the_constructor_reads_it :
  Response_of {| o_headers := None; o_body := Some (BodyString "ok");
                 o_status := Some 65737; o_statusText := None |}
    = Normal created_response
  /\ Response_of {| o_headers := None; o_body := None;
                    o_status := Some 99; o_statusText := None |}
     = Throw (RangeError "The status provided is outside the range [200, 599].")
  /\ Response_of {| o_headers := Some (HeaderRecord [("x y", "1")]); o_body := None;
                    o_status := None; o_statusText := None |}
     = Throw (TypeError "x y is an invalid header name.")
  /\ thrown (_send demo_errors
               (VObject {| o_headers := None; o_body := None; o_status := None;
                           o_statusText := Some (String (ascii_of_nat 10) "") |})
               fresh_message [] plain_context (Some get_page) (initial_state None) [])
     = Some (TypeError "Invalid statusText")
  /\ message (_send demo_errors
                (VObject {| o_headers := None; o_body := None; o_status := None;
                            o_statusText := Some (String (ascii_of_nat 10) "") |})
                fresh_message [] plain_context (Some get_page) (initial_state None) [])
     = fresh_message.
Proof. repeat split; reflexivity. Qed.

(** C1 as stated fails: the route handler of this request returns
    [{ status: 201, body: 'ok' }], and the request is rejected with a
    [TypeError] instead of being settled with a response. *)
Lemma returned_object_is_rejected :
  let cfg := serve_with [] [("/page", ModuleFunction object_handler)] [] false in
  snd (settle_request demo cfg quiet get_page)
    = [CalledHandler "() => ({ status: 201, body: 'ok' })"]
  /\ promise (fst (settle_request demo cfg quiet get_page))
       = Rejected (TypeError
           "() => ({ status: 201, body: 'ok' }) did not return a response.")
  /\ promise (fst (settle_request demo cfg quiet get_page))
       <> Fulfilled (VResponse created_response).
Proof.
  cbv zeta. repeat split; try reflexivity. discriminate.
Qed.

(** ** The response sender *)

Lemma fold_setHeader_frame {A} (f : ServerResponse -> A -> ServerResponse) (l : list A) :
  (forall m a, headersSent (f m a) = headersSent m /\ writable (f m a) = writable m
               /\ head_calls (f m a) = head_calls m /\ write_calls (f m a) = write_calls m
               /\ end_calls (f m a) = end_calls m) ->
  forall m, headersSent (fold_left f l m) = headersSent m
            /\ writable (fold_left f l m) = writable m
            /\ head_calls (fold_left f l m) = head_calls m
            /\ write_calls (fold_left f l m) = write_calls m
            /\ end_calls (fold_left f l m) = end_calls m.
Proof.
  intro H. induction l as [|a l IH]; simpl; intro m; [tauto|].
  destruct (IH (f m a)) as (A1 & A2 & A3 & A4 & A5).
  destruct (H m a) as (B1 & B2 & B3 & B4 & B5).
  rewrite A1, A2, A3, A4, A5. tauto.
Qed.

(** Writing the head adds one status line, the response's own or 500 for
    status 0, and leaves the body log alone. *)
Lemma write_head_unsent resp m :
  headersSent m = false ->
  headersSent (write_head resp m) = true
  /\ writable (write_head resp m) = writable m
  /\ head_calls (write_head resp m)
       = head_calls m ++ [(if status resp =? 0 then 500 else status resp,
                           Some (statusText resp))]
  /\ write_calls (write_head resp m) = write_calls m
  /\ end_calls (write_head resp m) = end_calls m.
Proof.
  intro H. unfold write_head. rewrite H. simpl.
  set (f1 := fun acc (kv : string * string) =>
               if negb (String.eqb (fst kv) "set-cookie")
               then setHeader (fst kv) (snd kv) acc else acc).
  set (f2 := fun acc cookie => appendHeader "Set-Cookie" cookie acc).
  assert (F1 : forall m a, headersSent (f1 m a) = headersSent m
                           /\ writable (f1 m a) = writable m
                           /\ head_calls (f1 m a) = head_calls m
                           /\ write_calls (f1 m a) = write_calls m
                           /\ end_calls (f1 m a) = end_calls m).
  { intros m0 a. unfold f1. destruct (negb _); simpl; tauto. }
  assert (F2 : forall m (a : string), headersSent (f2 m a) = headersSent m
                           /\ writable (f2 m a) = writable m
                           /\ head_calls (f2 m a) = head_calls m
                           /\ write_calls (f2 m a) = write_calls m
                           /\ end_calls (f2 m a) = end_calls m).
  { intros m0 a. unfold f2. simpl. tauto. }
  destruct (fold_setHeader_frame f2 (Headers_getSetCookie (headers resp)) F2
              (fold_left f1 (headers resp) m)) as (A1 & A2 & A3 & A4 & A5).
  destruct (fold_setHeader_frame f1 (headers resp) F1 m) as (B1 & B2 & B3 & B4 & B5).
  rewrite A2, A3, A4, A5, B2, B3, B4, B5. tauto.
Qed.

Lemma write_head_sent resp m : headersSent m = true -> write_head resp m = m.
Proof. intro H. unfold write_head. rewrite H. reflexivity. Qed.

(** Once the head is out, neither the abort reply nor the body adds a
    status line. *)
Lemma abort_reply_sent reason m :
  headersSent m = true -> head_calls (abort_reply reason m) = head_calls m.
Proof.
  intro H. unfold abort_reply. rewrite H. simpl. destruct (writable m); reflexivity.
Qed.

Lemma fold_write_head_calls (chunks : list string) : forall m,
  head_calls (fold_left (fun acc c => write (Chunk c) acc) chunks m) = head_calls m.
Proof. induction chunks as [|c chunks IH]; simpl; intro m; [reflexivity|]. now rewrite IH. Qed.

Lemma stream_out_head_calls b m : head_calls (fst (stream_out b m)) = head_calls m.
Proof.
  unfold stream_out. destruct b as [s|]; [|reflexivity].
  destruct (writable m && negb (locked s)); [|reflexivity].
  simpl. apply fold_write_head_calls.
Qed.

(** C5 (as amended). When the signal of the context, which is the signal
    of the request's own controller (line 235), is already aborted as
    [_send] starts and no headers have been sent, [_send] sets
    [Content-Type: application/json], writes the status 408 with one call
    of [writeHead], writes the JSON of an [HTTPError] of status 408 that
    carries the abort reason (its message and, as the cause, the reason
    itself or [new Error(reason)]) when the message is still writable, and
    ends the message; it calls no postprocessor and throws nothing. *)
Theorem aborted_request_gets_408 (E : HTTPError_module) (resp : jsval)
    (m : ServerResponse) (pps : list postprocessor) (pattern : option URLPattern)
    (request : Request) (request' : option Request) (st : request_state)
    (during : list event) (reason : jsval) :
  controller_signal st = Some reason ->
  headersSent m = false ->
  let r := _send E resp m pps (context_of pattern request) request' st during in
  let cause := if instanceof_Error reason then reason else Error_new reason in
  thrown r = None
  /\ postprocessor_calls r = []
  /\ header_calls (message r) = header_calls m ++ [("Content-Type", "application/json")]
  /\ head_calls (message r) = head_calls m ++ [(408, None)]
  /\ write_calls (message r)
       = write_calls m ++ (if writable m
                           then [ErrorJSON (VHTTPError (message_of cause) 408 cause)]
                           else [])
  /\ end_calls (message r) = S (end_calls m).
Proof.
  intros A H. unfold _send. simpl. rewrite A. simpl.
  unfold abort_reply. rewrite H. simpl.
  destruct (writable m); simpl; repeat split; try reflexivity.
  now rewrite app_nil_r.
Qed.

(** The socket closes before anything is sent: the reply is 408 with the
    reason in its body. *)
Lemma aborted_request_gets_408_witness :
  let r := _send demo_errors (VResponse ok_response) fresh_message [marking 1 "!"]
             (context_of None get_page) (Some get_page) socket_closed [] in
  let cause := Error_new (VString "Socket closed") in
  thrown r = None
  /\ postprocessor_calls r = []
  /\ header_calls (message r) = [("Content-Type", "application/json")]
  /\ head_calls (message r) = [(408, None)]
  /\ write_calls (message r) = [ErrorJSON (VHTTPError "Socket closed" 408 cause)]
  /\ end_calls (message r) = 1%nat.
Proof.
  apply (aborted_request_gets_408 demo_errors (VResponse ok_response) fresh_message
           [marking 1 "!"] None get_page (Some get_page) socket_closed []
           (VString "Socket closed")); reflexivity.
Defined.

(** C5 as stated fails for the external signal: the signal passed to
    [serve] aborts while this request waits for its outcome, before any
    header is written; the context holds the controller's signal, which has
    not aborted, and the client gets the handler's response with status 200
    and its body, not a 408. *)
Lemma external_abort_is_not_answered_408 :
  let cfg := serve_with [] [("/page", ModuleFunction hello_handler)] [] true in
  let env := {| passed_at_start := None; during_hooks := []; during_import := [];
                during_resolveStaticPath := []; during_respondWithFile := [];
                during_settlement := [PassedAbort abort_error];
                during_postprocessors := []; during_postprocessors_again := [] |} in
  let r := fst (handle_request demo cfg env get_page fresh_message) in
  aborted (state_after r) PassedSignal = true
  /\ aborted (state_after r) (request_signal cfg) = true
  /\ head_calls (message r) = [(200, Some "OK")]
  /\ write_calls (message r) = [Chunk "hello"; Chunk "world"]
  /\ head_calls (message r) <> [(408, None)].
Proof.
  cbv zeta. repeat split; try reflexivity. discriminate.
Qed.

(** An abort that arrives while [_send] awaits the postprocessors finds
    the head of the response written by line 90: the reply to the abort
    goes out under the status of the response. *)
Example abort_during_postprocessors :
  let r := _send demo_errors (VResponse ok_response) fresh_message [marking 1 "-a"]
             plain_context (Some get_page) (initial_state None)
             [ControllerAbort (VString "Socket closed")] in
  head_calls (message r) = [(200, Some "OK")]
  /\ write_calls (message r)
       = [ErrorJSON (VHTTPError "Socket closed" 408 (Error_new (VString "Socket closed")))].
Proof. cbv zeta. split; reflexivity. Qed.

(** C7. A response whose status lies strictly between 299 and 309 and
    that has a [Location] header is sent without its postprocessors: when
    [_send] is handed such a response as the outcome to send (the signal of
    the context not aborted as it starts), it calls no postprocessor,
    awaits nothing, throws nothing, and the body it streams is [resp.body]
    itself, so that what reaches the transport is the head of the response
    followed by the chunks of [resp.body]. *)
Theorem immutable_response_bypasses_postprocessors (E : HTTPError_module)
    (resp : Response) (m : ServerResponse) (pps : list postprocessor)
    (context : Context) (request : option Request) (st : request_state)
    (during : list event) :
  299 < status resp < 309 ->
  Headers_has (headers resp) "Location" = true ->
  signal_state st (ctx_signal context) = None ->
  let r := _send E (VResponse resp) m pps context request st during in
  _isImmutableResponse resp = true
  /\ thrown r = None
  /\ postprocessor_calls r = []
  /\ body_sent r = Some (body resp)
  /\ pipes_of_sent r = option_map pipes (body resp)
  /\ message r = fst (stream_out (body resp) (write_head resp m))
  /\ state_after r = st.
Proof.
  intros [Lo Hi] L A.
  assert (I : _isImmutableResponse resp = true).
  { unfold _isImmutableResponse. rewrite L.
    apply Z.ltb_lt in Lo, Hi. now rewrite Lo, Hi. }
  cbv zeta. unfold _send, pipes_of_sent. rewrite A. unfold send_Response. rewrite I.
  simpl. rewrite A. simpl. repeat split; reflexivity.
Qed.

(** A redirect made by [Response.redirect] and given a body, with two
    marking postprocessors registered: none is called and the body goes out
    as it is. *)
Lemma immutable_response_bypasses_postprocessors_witness :
  let resp := {| status := 302; statusText := "";
                 headers := [("location", "http://localhost:8080/new")];
                 body := Some (Source ["moved"] false) |} in
  let r := _send demo_errors (VResponse resp) fresh_message
             [marking 1 "-a"; marking 2 "-b"] plain_context (Some get_page)
             (initial_state None) [ControllerAbort (VString "Socket closed")] in
  _isImmutableResponse resp = true
  /\ thrown r = None
  /\ postprocessor_calls r = []
  /\ body_sent r = Some (body resp)
  /\ pipes_of_sent r = option_map pipes (body resp)
  /\ message r = fst (stream_out (body resp) (write_head resp fresh_message))
  /\ state_after r = initial_state None.
Proof.
  apply (immutable_response_bypasses_postprocessors demo_errors
           {| status := 302; statusText := "";
              headers := [("location", "http://localhost:8080/new")];
              body := Some (Source ["moved"] false) |}
           fresh_message [marking 1 "-a"; marking 2 "-b"] plain_context
           (Some get_page) (initial_state None)
           [ControllerAbort (VString "Socket closed")]);
    [split; reflexivity | reflexivity | reflexivity].
Defined.

Example immutable_body_on_the_wire :
  let resp := {| status := 302; statusText := "";
                 headers := [("location", "http://localhost:8080/new")];
                 body := Some (Source ["moved"] false) |} in
  write_calls (message (_send demo_errors (VResponse resp) fresh_message
                          [marking 1 "-a"; marking 2 "-b"] plain_context (Some get_page)
                          (initial_state None) []))
    = [Chunk "moved"]
  /\ write_calls (message (_send demo_errors
                             (VResponse {| status := 200; statusText := "";
                                           headers := headers resp; body := body resp |})
                             fresh_message [marking 1 "-a"; marking 2 "-b"]
                             plain_context (Some get_page) (initial_state None) []))
    = [Chunk "moved-a-b"].
Proof. cbv zeta. split; reflexivity. Qed.

(** C10. When [_send] is handed a [Response] as the outcome to send (the
    signal of the context not aborted as it starts) and no headers have been
    sent, then either choosing the body throws, before anything is written,
    or exactly one status line is written: 500 when the [status] of the
    response is 0, and the [status] of the response otherwise. *)
Theorem response_status_on_the_wire (E : HTTPError_module) (resp : Response)
    (m : ServerResponse) (pps : list postprocessor) (context : Context)
    (request : option Request) (st : request_state) (during : list event) :
  signal_state st (ctx_signal context) = None ->
  headersSent m = false ->
  let r := _send E (VResponse resp) m pps context request st during in
  (thrown r = None
   /\ head_calls (message r)
        = head_calls m ++ [(if status resp =? 0 then 500 else status resp,
                            Some (statusText resp))])
  \/ (exists e,
        thrown r = Some e /\ message r = m
        /\ _isImmutableResponse resp = false
        /\ chain_transforms (snd (call_postprocessors pps resp request context))
             (ctx_signal context) (body resp) = Throw e).
Proof.
  intros A H. cbv zeta. unfold _send. rewrite A. unfold send_Response.
  destruct (write_head_unsent resp m H) as (W1 & W2 & W3 & W4 & W5).
  destruct (_isImmutableResponse resp) eqn:I.
  - left. rewrite A. cbn [thrown message]. split; [reflexivity|].
    rewrite stream_out_head_calls. exact W3.
  - destruct (call_postprocessors pps resp request context) as [effects results] eqn:C.
    cbn [snd].
    destruct (chain_transforms results (ctx_signal context) (body resp)) as [b|e] eqn:T.
    + left.
      destruct (signal_state (run_events (effects ++ during) st) (ctx_signal context));
        cbn [thrown message]; (split; [reflexivity|]).
      * rewrite abort_reply_sent by exact W1. exact W3.
      * rewrite stream_out_head_calls. exact W3.
    + right. exists e. cbn [thrown message]. repeat split; reflexivity.
Qed.

(** [Response.error()] has status 0: its status line is 500. *)
Lemma response_status_on_the_wire_witness :
  let r := _send demo_errors (VResponse error_response) fresh_message [] plain_context
             (Some get_page) (initial_state None) [] in
  (thrown r = None
   /\ head_calls (message r)
        = head_calls fresh_message
            ++ [(if status error_response =? 0 then 500 else status error_response,
                 Some (statusText error_response))])
  \/ (exists e,
        thrown r = Some e /\ message r = fresh_message
        /\ _isImmutableResponse error_response = false
        /\ chain_transforms
             (snd (call_postprocessors [] error_response (Some get_page) plain_context))
             (ctx_signal plain_context) (body error_response) = Throw e).
Proof.
  apply (response_status_on_the_wire demo_errors error_response fresh_message []
           plain_context (Some get_page) (initial_state None) []); reflexivity.
Defined.

Example status_lines :
  head_calls (message (_send demo_errors (VResponse error_response) fresh_message []
                         plain_context (Some get_page) (initial_state None) []))
    = [(500, Some "")]
  /\ head_calls (message (_send demo_errors (VResponse ok_response) fresh_message []
                            plain_context (Some get_page) (initial_state None) []))
    = [(200, Some "OK")].
Proof. split; reflexivity. Qed.

(** ** Postprocessors *)

Lemma _isTransformStream_not_null v :
  v <> VNull -> _isTransformStream v = Normal (is_pipe v).
Proof.
  intro H. destruct v; try reflexivity; [congruence|].
  simpl. unfold is_pipe. simpl.
  destruct readable_is_stream, writable_is_stream; reflexivity.
Qed.

(** As long as no postprocessor fulfils with [null], the filter keeps the
    entries whose value is a transform, in their order, and drops the
    rejected entries and the other values. *)
Lemma filter_transforms_no_null results :
  (forall r, In r results -> result_value r <> VNull) ->
  filter_transforms results
    = Normal (filter (fun r => is_pipe (result_value r)) results).
Proof.
  induction results as [|r rest IH]; simpl; intro H; [reflexivity|].
  rewrite (_isTransformStream_not_null (result_value r)) by (apply H; now left).
  simpl. rewrite IH by (intros q Hq; apply H; now right). reflexivity.
Qed.

(** Two transforms kept out of four results: they are chained onto the
    body in the order of the postprocessors, with the signal of the
    context. *)
Example two_transforms_in_order :
  let r := _send demo_errors (VResponse ok_response) fresh_message
             [marking 1 "-a";
              {| pp_id := 2; pp_call := fun _ _ _ => ([], Throw boom) |};
              {| pp_id := 3; pp_call := fun _ _ _ => ([], Normal VUndefined) |};
              marking 4 "-b"]
             plain_context (Some get_page) (initial_state None) [] in
  postprocessor_calls r = [1; 2; 3; 4]%nat
  /\ body_sent r
       = Some (Some (PipeThrough
                       (PipeThrough (Source ["hello"; "world"] false)
                          {| ts_id := 1; ts_run := mark "-a" |} ControllerSignal)
                       {| ts_id := 4; ts_run := mark "-b" |} ControllerSignal))
  /\ write_calls (message r) = [Chunk "hello-a-b"; Chunk "world-a-b"].
Proof. cbv zeta. repeat split; reflexivity. Qed.

(** C8, at the failing input. A postprocessor that returns [null] is not
    discarded: [_isTransformStream(null)] passes [typeof null === 'object']
    and throws on [null.readable], so [_send] throws before a header is
    written; the [catch] of the request handler then sends the error
    response through the same postprocessors and throws again.  Nothing
    reaches the transport, and the message is not ended. *)
Theorem null_result_blocks_the_send :
  let r := _send demo_errors (VResponse ok_response) fresh_message
             [marking 1 "-a"; returns_null] plain_context (Some get_page)
             (initial_state None) [] in
  let cfg := serve_with [] [("/page", ModuleFunction hello_handler)]
               [marking 1 "-a"; returns_null] false in
  let whole := fst (handle_request demo cfg quiet get_page fresh_message) in
  _isTransformStream VNull
    = Throw (TypeError "Cannot read properties of null (reading 'readable')")
  /\ postprocessor_calls r = [1; 7]%nat
  /\ thrown r = Some (TypeError "Cannot read properties of null (reading 'readable')")
  /\ message r = fresh_message
  /\ thrown whole = Some (TypeError "Cannot read properties of null (reading 'readable')")
  /\ message whole = fresh_message.
Proof. cbv zeta. repeat split; reflexivity. Qed.

(** The same happens with a valid transform and a response without a
    body: [reduce] calls [pipeThrough] on [null]. *)
Example transform_on_null_body :
  thrown (_send demo_errors
            (VResponse {| status := 204; statusText := ""; headers := []; body := None |})
            fresh_message [marking 1 "-a"] plain_context (Some get_page)
            (initial_state None) [])
    = Some (TypeError "Cannot read properties of null (reading 'pipeThrough')").
Proof. reflexivity. Qed.

(** ** A route whose module has no default export *)

Section MissingDefault.

Variable X : collaborators.

(** The request is rejected with what the call of line 265 returns, or
    with what it throws. *)
Lemma missing_default_unsettled specifier st :
  settled st = false -> promise st = Pending ->
  promise (missing_default X specifier st)
    = Rejected (match HTTPError_call (errors X) "There was an error handling the request."
                        500 (VError "Error" (specifier ++ " is missing a default export.")
                               VUndefined) with
                | Normal err => err
                | Throw e => e
                end).
Proof.
  intros S P. unfold missing_default.
  destruct (HTTPError_call (errors X) _ _ _); apply reject_unsettled; assumption.
Qed.

End MissingDefault.

(** C6, where the code departs from it. The URL matches a route whose
    target is a module specifier, the module loads and has no callable
    default export, and nothing has settled the request.  With [HTTPError]
    a class, the call [HTTPError(...)] of line 265, made without [new],
    throws; the [catch] of line 295 rejects the request with that
    [TypeError], not with an [HTTPError] of status 500.  The static root is
    never consulted. *)
Theorem missing_default_rejects_with_type_error (X : collaborators) (cfg : config)
    (env : environment) (request : Request) (p : URLPattern) (specifier : string) :
  HTTPError_call (errors X) = class_constructor_call ->
  find_pattern X (ROUTES X cfg) (req_url request) = Some p ->
  ROUTES_get (ROUTES X cfg) p = Some (TargetSpecifier specifier) ->
  import_ X specifier = ImportModule None ->
  reaches_resolution X cfg env request = true ->
  first_call (during_import env) = None ->
  promise (fst (settle_request X cfg env request))
    = Rejected (TypeError "Class constructor HTTPError cannot be invoked without 'new'")
  /\ static_lookups (snd (settle_request X cfg env request)) = []
  /\ route_steps (snd (settle_request X cfg env request)) = [Imported specifier].
Proof.
  intros C F G I R D.
  pose proof (call_hooks_steps (requestPreprocessors cfg) request
                (request_context X cfg request) 0) as [H1 H2].
  fold (fan_out X cfg request) in H1, H2.
  rewrite (settle_request_at_resolution X cfg env request R), F, G.
  cbn [fst snd]. rewrite static_lookups_app, route_steps_app, H1, H2.
  unfold run_route. rewrite I. cbn [fst snd app].
  unfold reaches_resolution in R.
  destruct (snd (fan_out X cfg request)) as [results|]; [|discriminate].
  destruct (rejected_reasons results); [|discriminate].
  apply andb_true_iff in R. destruct R as [_ S]. apply negb_true_iff in S.
  destruct (state_after_hooks_consistent X cfg env request) as [P _].
  destruct (run_events_first_call (during_import env)
              (state_after_hooks X cfg env request) S (P S)) as [P1 S1].
  rewrite D in P1, S1.
  rewrite (missing_default_unsettled X specifier _ S1 P1), C.
  repeat split; reflexivity.
Qed.

(** A request for a page whose module exports no default. *)
Lemma missing_default_rejects_with_type_error_witness :
  let cfg := serve_with [] [("/page", ModulePath "./routes/page.js")] [] false in
  promise (fst (settle_request demo cfg quiet get_page))
    = Rejected (TypeError "Class constructor HTTPError cannot be invoked without 'new'")
  /\ static_lookups (snd (settle_request demo cfg quiet get_page)) = []
  /\ route_steps (snd (settle_request demo cfg quiet get_page))
       = [Imported "./routes/page.js"].
Proof.
  apply (missing_default_rejects_with_type_error demo
           (serve_with [] [("/page", ModulePath "./routes/page.js")] [] false)
           quiet get_page
           {| pat_id := 0; pat_source := "/page"; pat_base := "http://localhost:8080" |}
           "./routes/page.js"); reflexivity.
Defined.

(** ** Every request gets an outcome *)

Lemma reject_settles v st :
  consistent st -> promise (reject v st) <> Pending.
Proof.
  unfold consistent, reject. intros [H1 H2].
  destruct (settled st) eqn:S; simpl.
  - intro P. specialize (H2 P). discriminate.
  - rewrite (H1 eq_refl). discriminate.
Qed.

Lemma resolve_settles v st :
  consistent st -> promise (resolve v st) <> Pending.
Proof.
  unfold consistent, resolve. intros [H1 H2].
  destruct (settled st) eqn:S; simpl.
  - intro P. specialize (H2 P). discriminate.
  - rewrite (H1 eq_refl). discriminate.
Qed.

Lemma call_handler_settles f specifier request context st :
  consistent st -> promise (fst (call_handler f specifier request context st)) <> Pending.
Proof.
  intro C. unfold call_handler.
  destruct (h_call f request context) as [effects result]. cbn [fst].
  pose proof (run_events_consistent effects st C) as C1.
  destruct (match result with Normal v => v | Throw e => e end);
    try (destruct (instanceof_Error _));
    first [apply reject_settles, C1 | apply resolve_settles, C1].
Qed.

Section Outcome.

Variable X : collaborators.

Lemma missing_default_settles specifier st :
  consistent st -> promise (missing_default X specifier st) <> Pending.
Proof.
  intro C. unfold missing_default.
  destruct (HTTPError_call (errors X) _ _ _); apply reject_settles, C.
Qed.

Lemma run_route_settles moduleSpecifier env request context st :
  consistent st ->
  promise (fst (run_route X moduleSpecifier env request context st)) <> Pending.
Proof.
  intro C. unfold run_route. destruct moduleSpecifier as [f|s].
  - apply call_handler_settles, C.
  - pose proof (run_events_consistent (during_import env) st C) as C1.
    destruct (import_ X s) as [err|[f|]].
    + destruct (instanceof_Error err); [apply reject_settles, C1|].
      destruct err; cbn [fst];
        first [apply reject_settles, C1 | apply missing_default_settles, C1].
    + pose proof (call_handler_settles f s request context _ C1) as H.
      destruct (call_handler f s request context (run_events (during_import env) st)).
      exact H.
    + apply missing_default_settles, C1.
Qed.

Lemma run_static_settles fileURL env request st :
  consistent st -> promise (fst (run_static X fileURL env request st)) <> Pending.
Proof.
  intro C. unfold run_static.
  pose proof (run_events_consistent (during_resolveStaticPath env) st C) as C1.
  destruct (resolveStaticPath X (file_pathname fileURL)) as [[resolved|]|e]; cbn [fst].
  - pose proof (run_events_consistent (during_respondWithFile env) _ C1) as C2.
    destruct (respondWithFile X resolved);
      [apply resolve_settles, C2 | apply reject_settles, C2].
  - apply reject_settles, C1.
  - apply reject_settles, C1.
Qed.

(** Whatever the hooks, the route and the static root do, the [try]
    statement of lines 240-297 leaves the promise of the request settled:
    the [await] of line 299 always resumes. *)
Lemma settle_request_settles cfg env request :
  promise (fst (settle_request X cfg env request)) <> Pending.
Proof.
  unfold settle_request.
  destruct (call_hooks (requestPreprocessors cfg) 0 request _)
    as [[effects called] results].
  set (st0 := initial_state _).
  assert (C0 : consistent st0) by apply initial_state_consistent.
  destruct results as [results|err]; cbn [fst].
  2: { apply reject_settles, run_events_consistent, C0. }
  pose proof (run_events_consistent (effects ++ during_hooks env) st0 C0) as C1.
  destruct (signal_state _ (request_signal cfg)); [apply reject_settles, C1|].
  destruct (Nat.eqb _ 1); [apply reject_settles, C1|].
  destruct (negb (Nat.eqb _ 0)); [apply reject_settles, C1|].
  destruct (controller_signal _); [apply reject_settles, C1|].
  destruct (settled (run_events (effects ++ during_hooks env) st0)) eqn:S; cbn [negb].
  - destruct (find_pattern X (ROUTES X cfg) (req_url request)); cbn [fst];
      intro P; apply C1 in P; congruence.
  - destruct (find_pattern X (ROUTES X cfg) (req_url request)) as [p|].
    + pose proof (run_route_settles
                    match ROUTES_get (ROUTES X cfg) p with
                    | Some t => t
                    | None => TargetSpecifier "undefined"
                    end env request
                    (context_of (Some p) request) _ C1) as H.
      destruct (run_route X _ env request _ _). exact H.
    + destruct (existsSync X _).
      * pose proof (run_static_settles
                      (getFileURL X (req_url request) (staticRoot cfg)) env request _ C1)
          as H.
        destruct (run_static X _ env request _). exact H.
      * apply reject_settles, C1.
Qed.

End Outcome.

(** ** Route selection at work *)

(** Two patterns match the URL: the one registered first is selected and
    its handler runs.  No pattern matches: [existsSync] is asked, and the
    request ends as not found. *)
Example overlapping_routes :
  let cfg := serve_with []
               [("/other", ModuleFunction object_handler);
                ("/pa", ModuleFunction hello_handler);
                ("/page", ModuleFunction object_handler)] [] false in
  option_map pat_source (find_pattern demo (ROUTES demo cfg) (req_url get_page))
    = Some "/pa"
  /\ test demo {| pat_id := 2; pat_source := "/page"; pat_base := base_url cfg |}
       (req_url get_page) = true
  /\ settle_request demo cfg quiet get_page
     = (resolve (VResponse ok_response) (initial_state None),
        [CalledHandler "() => new Response(body)"]).
Proof. cbv zeta. repeat split; reflexivity. Qed.

Example unmatched_request :
  let cfg := serve_with [] [("/other", ModuleFunction object_handler)] [] false in
  find_pattern demo (ROUTES demo cfg) (req_url get_page) = None
  /\ reaches_resolution demo cfg quiet get_page = true
  /\ settle_request demo cfg quiet get_page
     = (reject (VHTTPError "<http://localhost:8080/page> not found." 404 VUndefined)
          (initial_state None),
        [ExistsSync "file:///srv/page"]).
Proof. cbv zeta. repeat split; reflexivity. Qed.


(** ** An abort in the middle of the body *)

Lemma fold_write_calls (chunks : list string) : forall m,
  write_calls (fold_left (fun acc c => write (Chunk c) acc) chunks m)
    = write_calls m ++ map Chunk chunks.
Proof.
  induction chunks as [|c chunks IH]; simpl; intro m; [now rewrite app_nil_r|].
  rewrite IH. simpl. now rewrite <- app_assoc.
Qed.

Lemma fold_read_chunk {A} (chunks : list A) : forall r,
  rd_locked (fold_left (fun acc _ => read_chunk acc) chunks r) = rd_locked r
  /\ cancelled_with (rd_calls (fold_left (fun acc _ => read_chunk acc) chunks r))
       = cancelled_with (rd_calls r).
Proof.
  induction chunks as [|c chunks IH]; simpl; intro r; [tauto|].
  destruct (IH (read_chunk r)) as [A1 A2]. rewrite A1, A2. simpl.
  unfold cancelled_with. rewrite flat_map_app. simpl. now rewrite app_nil_r.
Qed.

(** The listener finds the body locked and a read waiting: it releases
    the lock, which rejects the read, and cancels nothing. *)
Lemma cancel_waiting reason r :
  rd_locked r = true ->
  cancel reason (read_waiting r)
    = ({| rd_locked := false; rd_read_pending := false; rd_on_closed := [];
          rd_calls := (rd_calls r ++ [Read]) ++ [ReleaseLock] |}, Some released).
Proof.
  intro L. unfold cancel, read_waiting. cbn [rd_locked]. rewrite L. reflexivity.
Qed.

(** C9, where the code departs from it. The body is the stream of the
    response itself.  The signal aborts with [reason] while the loop of
    lines 123-134 waits for a read, [k] chunks having been written.  No
    further chunk is written and the reader is released, as the claim
    says.  But the callback that would cancel the body with the abort
    reason waits for [reader.closed] to fulfil, and releasing the lock
    rejects that promise: the body is cancelled once, by the [catch] of
    line 138, with the [TypeError] of the rejected read, and the message is
    destroyed with that error. *)
Theorem aborted_stream_is_cancelled_with_the_read_error (chunks : list string)
    (m : ServerResponse) (k : nat) (reason : jsval) :
  let r := stream_out_aborted (Source chunks false) m k reason in
  write_calls (ab_message r) = write_calls m ++ map Chunk (firstn k chunks)
  /\ rd_locked (ab_reading r) = false
  /\ cancelled_with (rd_calls (ab_reading r)) = [released]
  /\ ab_destroyed r = Some released.
Proof.
  cbv zeta. unfold stream_out_aborted.
  cbn [read_all].
  destruct (fold_read_chunk (firstn k chunks) getReader) as [L C].
  rewrite (cancel_waiting reason _ L).
  unfold cancel. cbn [rd_locked body_cancel fst ab_message ab_reading ab_destroyed rd_calls].
  repeat split.
  - apply fold_write_calls.
  - unfold cancelled_with in *. rewrite !flat_map_app, C. reflexivity.
Qed.

(** The socket closes after the first of three chunks. *)
Example socket_closes_mid_stream :
  let r := stream_out_aborted (Source ["a"; "b"; "c"] false) fresh_message 1
             (VString "Socket closed") in
  write_calls (ab_message r) = [Chunk "a"]
  /\ rd_calls (ab_reading r) = [GetReader; Read; Read; ReleaseLock; Cancel released]
  /\ ~ In (Cancel (VString "Socket closed")) (rd_calls (ab_reading r)).
Proof.
  cbv zeta. repeat split; try reflexivity.
  simpl. intros [H|[H|[H|[H|[H|[]]]]]]; discriminate.
Qed.

(** * Further properties of the request handler and of the sender *)

(** ** Every request is settled, once *)

Lemma resolve_consistent v st : consistent st -> consistent (resolve v st).
Proof. apply (run_event_consistent st (CallResolve v)). Qed.

Lemma reject_consistent v st : consistent st -> consistent (reject v st).
Proof. apply (run_event_consistent st (CallReject v)). Qed.

Lemma call_handler_consistent f specifier request context st :
  consistent st -> consistent (fst (call_handler f specifier request context st)).
Proof.
  intro C. unfold call_handler.
  destruct (h_call f request context) as [effects result]. cbn [fst].
  pose proof (run_events_consistent effects st C) as C1.
  destruct (match result with Normal v => v | Throw e => e end);
    try (destruct (instanceof_Error _));
    first [apply reject_consistent, C1 | apply resolve_consistent, C1].
Qed.

Section Settled.

Variable X : collaborators.

Lemma missing_default_consistent specifier st :
  consistent st -> consistent (missing_default X specifier st).
Proof.
  intro C. unfold missing_default.
  destruct (HTTPError_call (errors X) _ _ _); apply reject_consistent, C.
Qed.

Lemma run_route_consistent moduleSpecifier env request context st :
  consistent st ->
  consistent (fst (run_route X moduleSpecifier env request context st)).
Proof.
  intro C. unfold run_route. destruct moduleSpecifier as [f|s].
  - apply call_handler_consistent, C.
  - pose proof (run_events_consistent (during_import env) st C) as C1.
    destruct (import_ X s) as [err|[f|]].
    + destruct (instanceof_Error err); [apply reject_consistent, C1|].
      destruct err; cbn [fst];
        first [apply reject_consistent, C1 | apply missing_default_consistent, C1].
    + pose proof (call_handler_consistent f s request context _ C1) as H.
      destruct (call_handler f s request context (run_events (during_import env) st)).
      exact H.
    + apply missing_default_consistent, C1.
Qed.

Lemma run_static_consistent fileURL env request st :
  consistent st -> consistent (fst (run_static X fileURL env request st)).
Proof.
  intro C. unfold run_static.
  pose proof (run_events_consistent (during_resolveStaticPath env) st C) as C1.
  destruct (resolveStaticPath X (file_pathname fileURL)) as [[resolved|]|e]; cbn [fst].
  - pose proof (run_events_consistent (during_respondWithFile env) _ C1) as C2.
    destruct (respondWithFile X resolved);
      [apply resolve_consistent, C2 | apply reject_consistent, C2].
  - apply reject_consistent, C1.
  - apply reject_consistent, C1.
Qed.

Lemma settle_request_consistent cfg env request :
  consistent (fst (settle_request X cfg env request)).
Proof.
  unfold settle_request.
  destruct (call_hooks (requestPreprocessors cfg) 0 request _)
    as [[effects called] results].
  set (st0 := initial_state _).
  assert (C0 : consistent st0) by apply initial_state_consistent.
  destruct results as [results|err]; cbn [fst].
  2: { apply reject_consistent, run_events_consistent, C0. }
  pose proof (run_events_consistent (effects ++ during_hooks env) st0 C0) as C1.
  destruct (signal_state _ (request_signal cfg)); [apply reject_consistent, C1|].
  destruct (Nat.eqb _ 1); [apply reject_consistent, C1|].
  destruct (negb (Nat.eqb _ 0)); [apply reject_consistent, C1|].
  destruct (controller_signal _); [apply reject_consistent, C1|].
  destruct (settled (run_events (effects ++ during_hooks env) st0)) eqn:S; cbn [negb].
  - destruct (find_pattern X (ROUTES X cfg) (req_url request)); exact C1.
  - destruct (find_pattern X (ROUTES X cfg) (req_url request)) as [p|].
    + pose proof (run_route_consistent
                    match ROUTES_get (ROUTES X cfg) p with
                    | Some t => t
                    | None => TargetSpecifier "undefined"
                    end env request
                    (context_of (Some p) request) _ C1) as H.
      destruct (run_route X _ env request _ _). exact H.
    + destruct (existsSync X _).
      * pose proof (run_static_consistent
                      (getFileURL X (req_url request) (staticRoot cfg)) env request _ C1)
          as H.
        destruct (run_static X _ env request _). exact H.
      * apply reject_consistent, C1.
Qed.

End Settled.

(** ** The checks after the fan-out *)

Section AfterFanOut.

Variable X : collaborators.

(** With no hook throwing in the call, [settle_request] goes on from the
    state the fan-out ends in. *)
Lemma fan_out_no_throw cfg request :
  (forall plugin e, In plugin (requestPreprocessors cfg) ->
     snd (plugin request (request_context X cfg request)) <> HookThrows e) ->
  snd (fan_out X cfg request)
    = Normal (map (fun plugin =>
                allSettled_hook (snd (plugin request (request_context X cfg request))))
              (requestPreprocessors cfg))
  /\ snd (fst (fan_out X cfg request))
     = map CalledHook (seq 0 (List.length (requestPreprocessors cfg))).
Proof. intro H. unfold fan_out. apply call_hooks_normal, H. Qed.

Lemma state_after_hooks_first_call cfg env request :
  promise (state_after_hooks X cfg env request)
    = match first_call (fst (fst (fan_out X cfg request)) ++ during_hooks env) with
      | Some o => o
      | None => Pending
      end
  /\ settled (state_after_hooks X cfg env request)
     = match first_call (fst (fst (fan_out X cfg request)) ++ during_hooks env) with
       | Some _ => true
       | None => false
       end.
Proof.
  unfold state_after_hooks, arrival. apply run_events_first_call; reflexivity.
Qed.

End AfterFanOut.

(** X2. A preprocessor that settles the request through [context.resolve]
    or [context.reject] ends the handling: when every preprocessor has
    returned and the request is settled by then, the handler neither
    imports nor calls a route target and does not consult the static root,
    whatever the other preprocessors did and whether or not the signal has
    aborted; the outcome is the argument of the first callback call. *)
Theorem settled_by_a_preprocessor_skips_routing (X : collaborators) (cfg : config)
    (env : environment) (request : Request) :
  (forall plugin e, In plugin (requestPreprocessors cfg) ->
     snd (plugin request (request_context X cfg request)) <> HookThrows e) ->
  settled (state_after_hooks X cfg env request) = true ->
  settle_request X cfg env request
    = (state_after_hooks X cfg env request,
       map CalledHook (seq 0 (List.length (requestPreprocessors cfg))))
  /\ Some (promise (fst (settle_request X cfg env request)))
     = first_call (fst (fst (fan_out X cfg request)) ++ during_hooks env)
  /\ route_steps (snd (settle_request X cfg env request)) = []
  /\ static_lookups (snd (settle_request X cfg env request)) = [].
Proof.
  intros NoThrow S.
  destruct (fan_out_no_throw X cfg request NoThrow) as [R C].
  destruct (state_after_hooks_first_call X cfg env request) as [P1 S1].
  pose proof (call_hooks_steps (requestPreprocessors cfg) request
                (request_context X cfg request) 0) as [H1 H2].
  fold (fan_out X cfg request) in H1, H2.
  assert (E : settle_request X cfg env request
              = (state_after_hooks X cfg env request, snd (fst (fan_out X cfg request)))).
  { unfold settle_request. unfold state_after_hooks, fan_out, arrival in *.
    fold (request_context X cfg request) in *.
    destruct (call_hooks (requestPreprocessors cfg) 0 request
                (request_context X cfg request)) as [[effects called] results].
    cbn [fst snd] in *. rewrite R.
    destruct (signal_state _ (request_signal cfg)); [now rewrite reject_settled|].
    destruct (Nat.eqb _ 1); [now rewrite reject_settled|].
    destruct (negb (Nat.eqb _ 0)); [now rewrite reject_settled|].
    destruct (controller_signal _); [now rewrite reject_settled|].
    rewrite S. cbn [negb].
    destruct (find_pattern X (ROUTES X cfg) (req_url request)); reflexivity. }
  rewrite E. cbn [fst snd]. rewrite H1, H2, <- C. repeat split.
  rewrite P1. rewrite S in S1.
  destruct (first_call _); [reflexivity|discriminate].
Qed.

(** A preprocessor answers the request, another one fails: the handler
    stops after the fan-out with the answer as the outcome. *)
Lemma settled_by_a_preprocessor_skips_routing_witness :
  let cfg := serve_with [answering_hook; failing_hook]
               [("/page", ModuleFunction hello_handler)] [] false in
  settle_request demo cfg quiet get_page
    = (state_after_hooks demo cfg quiet get_page,
       map CalledHook (seq 0 (List.length (requestPreprocessors cfg))))
  /\ Some (promise (fst (settle_request demo cfg quiet get_page)))
     = first_call (fst (fst (fan_out demo cfg get_page)) ++ during_hooks quiet)
  /\ route_steps (snd (settle_request demo cfg quiet get_page)) = []
  /\ static_lookups (snd (settle_request demo cfg quiet get_page)) = [].
Proof.
  apply (settled_by_a_preprocessor_skips_routing demo
           (serve_with [answering_hook; failing_hook]
              [("/page", ModuleFunction hello_handler)] [] false) quiet get_page).
  - intros plugin e [<-|[<-|[]]]; discriminate.
  - reflexivity.
Defined.

(** X3. An abort outranks the failures of the preprocessors: when every
    preprocessor has returned, the signal the handler watches has aborted
    by the end of the fan-out and the request is not settled yet, the
    request is rejected with the reason of the signal, however many
    preprocessors failed, and no route target or static file is tried. *)
Theorem abort_outranks_preprocessor_failures (X : collaborators) (cfg : config)
    (env : environment) (request : Request) (reason : jsval) :
  (forall plugin e, In plugin (requestPreprocessors cfg) ->
     snd (plugin request (request_context X cfg request)) <> HookThrows e) ->
  signal_state (state_after_hooks X cfg env request) (request_signal cfg) = Some reason ->
  settled (state_after_hooks X cfg env request) = false ->
  promise (fst (settle_request X cfg env request)) = Rejected reason
  /\ snd (settle_request X cfg env request)
     = map CalledHook (seq 0 (List.length (requestPreprocessors cfg))).
Proof.
  intros NoThrow A S.
  destruct (fan_out_no_throw X cfg request NoThrow) as [R C].
  destruct (state_after_hooks_consistent X cfg env request) as [P _].
  specialize (P S).
  unfold settle_request. unfold state_after_hooks, fan_out, arrival in *.
  fold (request_context X cfg request) in *.
  destruct (call_hooks (requestPreprocessors cfg) 0 request
              (request_context X cfg request)) as [[effects called] results].
  cbn [fst snd] in *. rewrite R, A. cbn [fst snd]. split; [|exact C].
  apply reject_unsettled; assumption.
Qed.

(** Two preprocessors fail and the socket closes during the fan-out. *)
Lemma abort_outranks_preprocessor_failures_witness :
  let cfg := serve_with [failing_hook; failing_hook]
               [("/page", ModuleFunction hello_handler)] [] false in
  let env := {| passed_at_start := None;
                during_hooks := [ControllerAbort (VString "Socket closed")];
                during_import := []; during_resolveStaticPath := [];
                during_respondWithFile := []; during_settlement := [];
                during_postprocessors := []; during_postprocessors_again := [] |} in
  promise (fst (settle_request demo cfg env get_page)) = Rejected (VString "Socket closed")
  /\ snd (settle_request demo cfg env get_page)
     = map CalledHook (seq 0 (List.length (requestPreprocessors cfg))).
Proof.
  apply (abort_outranks_preprocessor_failures demo
           (serve_with [failing_hook; failing_hook]
              [("/page", ModuleFunction hello_handler)] [] false)
           {| passed_at_start := None;
              during_hooks := [ControllerAbort (VString "Socket closed")];
              during_import := []; during_resolveStaticPath := [];
              during_respondWithFile := []; during_settlement := [];
              during_postprocessors := []; during_postprocessors_again := [] |}
           get_page (VString "Socket closed")).
  - intros plugin e [<-|[<-|[]]]; discriminate.
  - reflexivity.
  - reflexivity.
Defined.

(** A hook that throws in the call ends the [map]: the hooks up to it have
    been called, the ones after it have not. *)
Lemma call_hooks_throw request context e (plugin : preprocessor)
    (after : list preprocessor) : forall (before : list preprocessor) index,
  (forall q e', In q before -> snd (q request context) <> HookThrows e') ->
  snd (plugin request context) = HookThrows e ->
  snd (call_hooks (before ++ plugin :: after) index request context) = Throw e
  /\ snd (fst (call_hooks (before ++ plugin :: after) index request context))
     = map CalledHook (seq index (S (List.length before))).
Proof.
  induction before as [|q before IH]; intros index NoThrow T.
  - simpl. destruct (plugin request context) as [effects result].
    simpl in T. subst result. simpl. tauto.
  - simpl. pose proof (NoThrow q) as Hq.
    destruct (q request context) as [effects result] eqn:Q. simpl in Hq.
    destruct (IH (S index)) as [A B];
      [intros q' e' Hin; apply NoThrow; now right | exact T |].
    destruct (call_hooks (before ++ plugin :: after) (S index) request context)
      as [[effects' steps] results].
    cbn [fst snd] in A, B. subst.
    destruct result; cbn [fst snd bind]; try tauto.
    exfalso. apply (Hq e0); [now left|reflexivity].
Qed.

(** X4. A preprocessor that throws in the call itself (a function that is
    not [async]) cuts the fan-out short: the preprocessors registered after
    it are never called, no route target or static file is tried, and the
    [catch] of line 295 rejects the request with what was thrown, unless a
    preprocessor called before had settled it already. *)
Theorem throwing_preprocessor_ends_the_fan_out (X : collaborators) (cfg : config)
    (env : environment) (request : Request) (before after : list preprocessor)
    (plugin : preprocessor) (e : jsval) :
  requestPreprocessors cfg = before ++ plugin :: after ->
  (forall q e', In q before ->
     snd (q request (request_context X cfg request)) <> HookThrows e') ->
  snd (plugin request (request_context X cfg request)) = HookThrows e ->
  snd (settle_request X cfg env request)
    = map CalledHook (seq 0 (S (List.length before)))
  /\ promise (fst (settle_request X cfg env request))
     = match first_call (fst (fst (fan_out X cfg request))) with
       | Some o => o
       | None => Rejected e
       end.
Proof.
  intros Hooks NoThrow T.
  destruct (call_hooks_throw request (request_context X cfg request) e plugin after
              before 0 NoThrow T) as [R C].
  unfold settle_request, fan_out. cbv zeta. unfold request_context in *.
  rewrite Hooks.
  destruct (call_hooks (before ++ plugin :: after) 0 request
              (context_of (find_pattern X (ROUTES X cfg) (req_url request)) request))
    as [[effects called] results].
  cbn [fst snd] in *. subst results called. cbn [fst snd]. split; [reflexivity|].
  destruct (run_events_first_call effects
              (initial_state (if passedSignal_is_AbortSignal cfg
                              then passed_at_start env else None))
              eq_refl eq_refl) as [P S].
  destruct (first_call effects) as [o|].
  - rewrite reject_settled by exact S. exact P.
  - apply reject_unsettled; assumption.
Qed.

(** A rejecting preprocessor, then a throwing one, then one more. *)
Lemma throwing_preprocessor_ends_the_fan_out_witness :
  let cfg := serve_with [failing_hook; throwing_hook; answering_hook] [] [] false in
  snd (settle_request demo cfg quiet get_page)
    = map CalledHook (seq 0 (S (List.length [failing_hook])))
  /\ promise (fst (settle_request demo cfg quiet get_page))
     = match first_call (fst (fst (fan_out demo cfg get_page))) with
       | Some o => o
       | None => Rejected (VError "Error" "thrown" VUndefined)
       end.
Proof.
  apply (throwing_preprocessor_ends_the_fan_out demo
           (serve_with [failing_hook; throwing_hook; answering_hook] [] [] false)
           quiet get_page [failing_hook] [answering_hook] throwing_hook
           (VError "Error" "thrown" VUndefined)).
  - reflexivity.
  - intros q e' [<-|[]]; discriminate.
  - reflexivity.
Defined.

(** ** The static root *)

(** X5. A request that no route matches and that gets to route resolution
    is answered from the static root.  When the file does not exist, or
    [resolveStaticPath] does not give a string, the request is rejected
    with the [HTTPError] "<url> not found." of status 404, unless it was
    settled during the [await]; [respondWithFile] is not called. *)
Theorem unmatched_request_without_file_is_not_found (X : collaborators) (cfg : config)
    (env : environment) (request : Request) :
  let fileURL := getFileURL X (req_url request) (staticRoot cfg) in
  find_pattern X (ROUTES X cfg) (req_url request) = None ->
  reaches_resolution X cfg env request = true ->
  existsSync X (file_href fileURL) = false
  \/ (existsSync X (file_href fileURL) = true
      /\ resolveStaticPath X (file_pathname fileURL) = Normal None
      /\ first_call (during_resolveStaticPath env) = None) ->
  promise (fst (settle_request X cfg env request))
    = Rejected (VHTTPError ("<" ++ req_url request ++ "> not found.") 404 VUndefined)
  /\ static_lookups (snd (settle_request X cfg env request)) = [file_href fileURL]
  /\ (forall path, ~ In (RespondedWithFile path) (snd (settle_request X cfg env request))).
Proof.
  intros fileURL F R H.
  pose proof (call_hooks_steps (requestPreprocessors cfg) request
                (request_context X cfg request) 0) as [H1 _].
  fold (fan_out X cfg request) in H1.
  assert (Hooks : forall path, ~ In (RespondedWithFile path)
                                  (snd (fst (fan_out X cfg request)))).
  { intros path. unfold fan_out.
    generalize 0%nat. induction (requestPreprocessors cfg) as [|plugin rest IH];
      intro index; simpl; [tauto|].
    destruct (plugin request _) as [effects result].
    specialize (IH (S index)).
    destruct (call_hooks rest (S index) request _) as [[effects' steps] results].
    destruct result; simpl in *; intros [D|D]; try discriminate; tauto. }
  rewrite (settle_request_at_resolution X cfg env request R), F. cbv zeta.
  fold fileURL.
  unfold reaches_resolution in R.
  destruct (snd (fan_out X cfg request)) as [results|]; [|discriminate].
  destruct (rejected_reasons results); [|discriminate].
  apply andb_true_iff in R. destruct R as [_ S]. apply negb_true_iff in S.
  destruct (state_after_hooks_consistent X cfg env request) as [P _].
  specialize (P S).
  destruct H as [Ex|(Ex & Res & Quiet)]; rewrite Ex; cbn [fst snd].
  - rewrite static_lookups_app, H1. repeat split.
    + apply reject_unsettled; assumption.
    + intros path Hin. apply in_app_or in Hin. destruct Hin as [Hin|[D|[]]];
        [exact (Hooks path Hin)|discriminate].
  - unfold run_static. fold fileURL. rewrite Res. cbn [fst snd].
    destruct (run_events_first_call (during_resolveStaticPath env) _ S P) as [P1 S1].
    rewrite Quiet in P1, S1.
    rewrite static_lookups_app, H1. repeat split.
    + apply reject_unsettled; assumption.
    + intros path Hin. apply in_app_or in Hin.
      destruct Hin as [Hin|[D|[D|[]]]]; [exact (Hooks path Hin)|discriminate..].
Qed.

(** The demo static root is empty. *)
Lemma unmatched_request_without_file_is_not_found_witness :
  let cfg := serve_with [] [("/other", ModuleFunction hello_handler)] [] false in
  let fileURL := getFileURL demo (req_url get_page) (staticRoot cfg) in
  promise (fst (settle_request demo cfg quiet get_page))
    = Rejected (VHTTPError ("<" ++ req_url get_page ++ "> not found.") 404 VUndefined)
  /\ static_lookups (snd (settle_request demo cfg quiet get_page)) = [file_href fileURL]
  /\ (forall path, ~ In (RespondedWithFile path)
                       (snd (settle_request demo cfg quiet get_page))).
Proof.
  apply (unmatched_request_without_file_is_not_found demo
           (serve_with [] [("/other", ModuleFunction hello_handler)] [] false)
           quiet get_page); [reflexivity | reflexivity | left; reflexivity].
Defined.

(** X6. A request that no route matches and that gets to route resolution,
    for a file that exists and that [resolveStaticPath] resolves to a path,
    is settled by [respondWithFile]: fulfilled with what it returns and
    rejected with what it throws, unless a callback settled the request
    during one of the two [await]s.  The collaborators are called in the
    order [existsSync], [resolveStaticPath], [respondWithFile], and no
    route target is imported or called. *)
Theorem static_file_settles_the_request (X : collaborators) (cfg : config)
    (env : environment) (request : Request) (resolved : string) :
  let fileURL := getFileURL X (req_url request) (staticRoot cfg) in
  find_pattern X (ROUTES X cfg) (req_url request) = None ->
  reaches_resolution X cfg env request = true ->
  existsSync X (file_href fileURL) = true ->
  resolveStaticPath X (file_pathname fileURL) = Normal (Some resolved) ->
  first_call (during_resolveStaticPath env ++ during_respondWithFile env) = None ->
  promise (fst (settle_request X cfg env request))
    = match respondWithFile X resolved with
      | Normal resp => Fulfilled resp
      | Throw e => Rejected e
      end
  /\ snd (settle_request X cfg env request)
     = snd (fst (fan_out X cfg request))
         ++ [ExistsSync (file_href fileURL); ResolvedStaticPath (file_pathname fileURL);
             RespondedWithFile resolved].
Proof.
  intros fileURL F R Ex Res Quiet.
  rewrite (settle_request_at_resolution X cfg env request R), F. cbv zeta.
  fold fileURL. rewrite Ex. cbn [fst snd].
  unfold run_static. rewrite Res. cbn [fst snd]. split; [|reflexivity].
  unfold reaches_resolution in R.
  destruct (snd (fan_out X cfg request)) as [results|]; [|discriminate].
  destruct (rejected_reasons results); [|discriminate].
  apply andb_true_iff in R. destruct R as [_ S]. apply negb_true_iff in S.
  destruct (state_after_hooks_consistent X cfg env request) as [P _].
  specialize (P S).
  rewrite <- run_events_app.
  destruct (run_events_first_call
              (during_resolveStaticPath env ++ during_respondWithFile env) _ S P)
    as [P1 S1].
  rewrite Quiet in P1, S1.
  destruct (respondWithFile X resolved);
    [apply resolve_unsettled | apply reject_unsettled]; assumption.
Qed.

(** The page exists under the static root. *)
Lemma static_file_settles_the_request_witness :
  let cfg := serve_with [] [("/other", ModuleFunction hello_handler)] [] false in
  let fileURL := getFileURL demo_with_file (req_url get_page) (staticRoot cfg) in
  promise (fst (settle_request demo_with_file cfg quiet get_page))
    = match respondWithFile demo_with_file "/srv/page/index.html" with
      | Normal resp => Fulfilled resp
      | Throw e => Rejected e
      end
  /\ snd (settle_request demo_with_file cfg quiet get_page)
     = snd (fst (fan_out demo_with_file cfg get_page))
         ++ [ExistsSync (file_href fileURL); ResolvedStaticPath (file_pathname fileURL);
             RespondedWithFile "/srv/page/index.html"].
Proof.
  apply (static_file_settles_the_request demo_with_file
           (serve_with [] [("/other", ModuleFunction hello_handler)] [] false)
           quiet get_page "/srv/page/index.html"); reflexivity.
Defined.

(** ** What [_send] always does, and never does *)

Lemma fold_write_frame (chunks : list string) : forall m,
  headersSent (fold_left (fun acc c => write (Chunk c) acc) chunks m) = headersSent m
  /\ header_calls (fold_left (fun acc c => write (Chunk c) acc) chunks m) = header_calls m
  /\ end_calls (fold_left (fun acc c => write (Chunk c) acc) chunks m) = end_calls m.
Proof.
  induction chunks as [|c chunks IH]; simpl; intro m; [tauto|].
  destruct (IH (write (Chunk c) m)) as (A & B & C). rewrite A, B, C. simpl. tauto.
Qed.

Lemma stream_out_frame b m :
  header_calls (fst (stream_out b m)) = header_calls m
  /\ end_calls (fst (stream_out b m)) = S (end_calls m)
  /\ writable (fst (stream_out b m)) = false.
Proof.
  unfold stream_out. destruct b as [s|]; [|simpl; tauto].
  destruct (writable m && negb (locked s)); [|simpl; tauto].
  cbn [fst end_ header_calls end_calls writable].
  destruct (fold_write_frame (read_all s) m) as (_ & B & C). rewrite B, C. tauto.
Qed.

Lemma abort_reply_frame reason m :
  end_calls (abort_reply reason m) = S (end_calls m)
  /\ writable (abort_reply reason m) = false
  /\ (headersSent m = true -> header_calls (abort_reply reason m) = header_calls m).
Proof.
  unfold abort_reply. destruct (headersSent m); simpl;
    destruct (writable m); simpl; repeat split; try reflexivity; discriminate.
Qed.

Lemma abort_reply_one_head reason m :
  head_calls (abort_reply reason m)
    = head_calls m ++ (if headersSent m then [] else [(408, None)]).
Proof.
  unfold abort_reply. destruct (headersSent m); simpl;
    destruct (writable m); simpl; now rewrite ?app_nil_r.
Qed.

Lemma write_head_one_head resp m :
  head_calls (write_head resp m)
    = head_calls m ++ (if headersSent m then []
                       else [(if status resp =? 0 then 500 else status resp,
                              Some (statusText resp))])
  /\ headersSent (write_head resp m) = true
  /\ end_calls (write_head resp m) = end_calls m.
Proof.
  destruct (headersSent m) eqn:H.
  - rewrite (write_head_sent resp m H). now rewrite app_nil_r.
  - destruct (write_head_unsent resp m H) as (A & _ & B & _ & C). tauto.
Qed.


Section SendInvariants.

Variable E : HTTPError_module.

Lemma send_Response_heads resp m pps context request st during :
  exists added,
    head_calls (message (send_Response resp m pps context request st during))
      = head_calls m ++ added
    /\ (List.length added <= 1)%nat
    /\ (headersSent m = true ->
        added = []
        /\ header_calls (message (send_Response resp m pps context request st during))
           = header_calls m).
Proof.
  unfold send_Response.
  destruct (write_head_one_head resp m) as (W & Ws & _).
  set (sel := if _isImmutableResponse resp then _ else _).
  destruct sel as [[st1 called] [b|e]]; cbn [message].
  2: { exists []. rewrite app_nil_r. repeat split; auto. }
  destruct (signal_state st1 (ctx_signal context)) as [reason|]; cbn [message].
  - rewrite abort_reply_one_head, Ws, app_nil_r, W.
    eexists. split; [reflexivity|]. split.
    + destruct (headersSent m); simpl; auto.
    + intro H. rewrite H. split; [reflexivity|].
      destruct (abort_reply_frame reason (write_head resp m)) as (_ & _ & F).
      rewrite (F Ws), (write_head_sent resp m H). reflexivity.
  - rewrite stream_out_head_calls, W.
    eexists. split; [reflexivity|]. split.
    + destruct (headersSent m); simpl; auto.
    + intro H. rewrite H. split; [reflexivity|].
      destruct (stream_out_frame b (write_head resp m)) as (F & _).
      rewrite F, (write_head_sent resp m H). reflexivity.
Qed.

End SendInvariants.

(** X7. The head of a response is written at most once.  Whatever value
    [_send] is handed and whatever happens while it awaits the
    postprocessors, it calls [writeHead] at most once, and on a message
    whose headers have been sent it calls neither [writeHead] nor
    [setHeader] nor [appendHeader]. *)
Theorem head_is_written_at_most_once (E : HTTPError_module) (resp : jsval)
    (m : ServerResponse) (pps : list postprocessor) (context : Context)
    (request : option Request) (st : request_state) (during : list event) :
  exists added,
    head_calls (message (_send E resp m pps context request st during))
      = head_calls m ++ added
    /\ (List.length added <= 1)%nat
    /\ (headersSent m = true ->
        added = []
        /\ header_calls (message (_send E resp m pps context request st during))
           = header_calls m).
Proof.
  unfold _send.
  destruct (signal_state st (ctx_signal context)) as [reason|]; cbn [message].
  - rewrite abort_reply_one_head. eexists. split; [reflexivity|]. split.
    + destruct (headersSent m); simpl; auto.
    + intro H. rewrite H. split; [reflexivity|].
      now apply (abort_reply_frame reason m).
  - assert (O : forall v,
      exists added,
        head_calls (message (send_object E v m pps context request st during))
          = head_calls m ++ added
        /\ (List.length added <= 1)%nat
        /\ (headersSent m = true ->
            added = []
            /\ header_calls (message (send_object E v m pps context request st during))
               = header_calls m)).
    { intro v. unfold send_object.
      destruct (o <- destructure E v ;; Response_of o) as [r|e].
      - apply send_Response_heads.
      - exists []. cbn [message]. rewrite app_nil_r. repeat split; auto. }
    destruct resp; cbn [typeof_object]; try apply O. apply send_Response_heads.
Qed.



(** ** An abort before the reply *)

Lemma every_request_settled_state (X : collaborators) cfg env request :
  settled (fst (settle_request X cfg env request)) = true
  /\ promise (fst (settle_request X cfg env request)) <> Pending.
Proof.
  pose proof (settle_request_settles X cfg env request) as P.
  pose proof (settle_request_consistent X cfg env request) as [C _].
  split; [|exact P].
  destruct (settled (fst (settle_request X cfg env request))); [reflexivity|].
  exfalso. apply P, C. reflexivity.
Qed.


(** X9. Once the controller of a request has aborted (the socket closed,
    the body-read timer fired, or a hook called [controller.abort]) by the
    time the handler resumes at line 299, the client gets the reply to the
    abort and nothing else: whatever the outcome of the request, fulfilled
    or rejected, the message holds what lines 56-67 write for the reason of
    the abort, no postprocessor is called and nothing is thrown. *)
Theorem abort_before_the_reply_discards_the_outcome (X : collaborators) (cfg : config)
    (env : environment) (request : Request) (m : ServerResponse) (reason : jsval) :
  controller_signal
    (run_events (during_settlement env) (fst (settle_request X cfg env request)))
    = Some reason ->
  thrown (fst (handle_request X cfg env request m)) = None
  /\ message (fst (handle_request X cfg env request m)) = abort_reply reason m
  /\ postprocessor_calls (fst (handle_request X cfg env request m)) = [].
Proof.
  intro A. unfold handle_request.
  destruct (every_request_settled_state X cfg env request) as [S N].
  destruct (settle_request X cfg env request) as [st steps]. cbn [fst] in *.
  destruct (run_events_settled (during_settlement env) st S) as [_ P].
  unfold respond. rewrite P.
  destruct (promise st) as [|resp|err] eqn:Pst.
  - exfalso. apply N. reflexivity.
  - unfold _send. cbn [context_of ctx_signal signal_state]. rewrite A.
    cbn [thrown fst message postprocessor_calls]. tauto.
  - unfold send_error.
    destruct err; unfold _send; cbn [context_of ctx_signal signal_state];
      rewrite A; cbn [thrown fst message postprocessor_calls]; tauto.
Qed.

(** The handler returns a response, and the socket closes while the
    request waits at line 299. *)
Lemma abort_before_the_reply_discards_the_outcome_witness :
  let cfg := serve_with [] [("/page", ModuleFunction hello_handler)] [marking 1 "-a"]
               false in
  let env := {| passed_at_start := None; during_hooks := []; during_import := [];
                during_resolveStaticPath := []; during_respondWithFile := [];
                during_settlement := [ControllerAbort (VString "Socket closed")];
                during_postprocessors := []; during_postprocessors_again := [] |} in
  thrown (fst (handle_request demo cfg env get_page fresh_message)) = None
  /\ message (fst (handle_request demo cfg env get_page fresh_message))
     = abort_reply (VString "Socket closed") fresh_message
  /\ postprocessor_calls (fst (handle_request demo cfg env get_page fresh_message)) = [].
Proof.
  apply (abort_before_the_reply_discards_the_outcome demo
           (serve_with [] [("/page", ModuleFunction hello_handler)] [marking 1 "-a"]
              false)
           {| passed_at_start := None; during_hooks := []; during_import := [];
              during_resolveStaticPath := []; during_respondWithFile := [];
              during_settlement := [ControllerAbort (VString "Socket closed")];
              during_postprocessors := []; during_postprocessors_again := [] |}
           get_page fresh_message (VString "Socket closed")).
  reflexivity.
Defined.

(** ** The chain of transforms *)

Lemma run_event_keeps_abort st e s reason :
  signal_state st s = Some reason -> signal_state (run_event st e) s = Some reason.
Proof.
  intro H. destruct e; simpl; unfold resolve, reject;
    try (destruct (settled st); simpl; destruct s; exact H);
    destruct s; simpl in *; rewrite ?H; try reflexivity; exact H.
Qed.

(** An aborted signal stays aborted, with its reason. *)
Lemma run_events_keep_abort es : forall st s reason,
  signal_state st s = Some reason -> signal_state (run_events es st) s = Some reason.
Proof.
  unfold run_events. induction es as [|e es IH]; simpl; intros st s reason H; [exact H|].
  apply IH, run_event_keeps_abort, H.
Qed.

Lemma chained_read_all signal ts : forall s,
  read_all (chained signal s ts) = transformed (read_all s) ts.
Proof.
  unfold chained, transformed. induction ts as [|t ts IH]; simpl; intro s; [reflexivity|].
  now rewrite IH.
Qed.

Lemma chained_pipes signal ts : forall s,
  pipes (chained signal s ts) = pipes s ++ map ts_id ts.
Proof.
  unfold chained. induction ts as [|t ts IH]; simpl; intro s; [now rewrite app_nil_r|].
  rewrite IH. simpl. now rewrite <- app_assoc.
Qed.

Lemma chained_unlocked signal ts : forall s,
  locked s = false -> locked (chained signal s ts) = false.
Proof.
  unfold chained. induction ts as [|t ts IH]; simpl; intros s H; [exact H|].
  now apply IH.
Qed.

(** Distinct transforms on an unlocked body: [reduce] pipes the body
    through each kept value in turn. *)
Lemma reduce_kept_transforms signal results : forall s,
  locked s = false ->
  NoDup (pipes s ++ map ts_id (kept_transforms results)) ->
  reduce_pipes (map result_value (filter (fun r => is_pipe (result_value r)) results))
    signal (Some s)
    = Normal (Some (chained signal s (kept_transforms results))).
Proof.
  induction results as [|r rest IH]; intros s L ND; [reflexivity|].
  simpl. unfold kept_transforms in ND. simpl in ND.
  fold (kept_transforms rest) in ND.
  assert (K : is_pipe (result_value r)
              = match pipe_of (result_value r) with Some _ => true | None => false end)
    by reflexivity.
  rewrite K.
  destruct (pipe_of (result_value r)) as [t|] eqn:P; simpl; simpl in ND.
  - unfold pipeThrough. rewrite P, L.
    assert (Fresh : existsb (Nat.eqb (ts_id t)) (pipes s) = false).
    { destruct (existsb (Nat.eqb (ts_id t)) (pipes s)) eqn:Ex; [|reflexivity].
      exfalso. apply existsb_exists in Ex. destruct Ex as (x & Hin & Hx).
      apply Nat.eqb_eq in Hx. subst x.
      apply NoDup_remove_2 in ND. apply ND, in_or_app. now left. }
    rewrite Fresh. simpl.
    rewrite (IH (PipeThrough s t signal)); [reflexivity|reflexivity|].
    simpl. rewrite <- app_assoc. exact ND.
  - apply IH; assumption.
Qed.

(** X10. For a response that is not immutable, every postprocessor is
    called, and the results that are transform streams are chained onto
    the body in the order of the postprocessors, each with the signal of
    the context; rejected postprocessors and results of other kinds are
    left out.  This holds when no result is [null], the body is an unlocked
    stream, the kept transforms are distinct objects the body has not been
    piped through, and the signal has not aborted when the postprocessors
    are done: the body [_send] then goes on with is the original body piped
    through the kept transforms, first to last, so that what is read from
    it is the chunks of the original body run through each of them in that
    order. *)
Theorem transforms_are_chained_in_order (E : HTTPError_module) (resp : Response)
    (m : ServerResponse) (pps : list postprocessor) (context : Context)
    (request : option Request) (st : request_state) (during : list event)
    (s : ReadableStream) :
  let results := snd (call_postprocessors pps resp request context) in
  let effects := fst (call_postprocessors pps resp request context) in
  let r := _send E (VResponse resp) m pps context request st during in
  _isImmutableResponse resp = false ->
  body resp = Some s ->
  locked s = false ->
  (forall result, In result results -> result_value result <> VNull) ->
  NoDup (pipes s ++ map ts_id (kept_transforms results)) ->
  signal_state (run_events (effects ++ during) st) (ctx_signal context) = None ->
  thrown r = None
  /\ postprocessor_calls r = map pp_id pps
  /\ body_sent r
     = Some (Some (chained (ctx_signal context) s (kept_transforms results)))
  /\ pipes (chained (ctx_signal context) s (kept_transforms results))
     = pipes s ++ map ts_id (kept_transforms results)
  /\ read_all (chained (ctx_signal context) s (kept_transforms results))
     = transformed (read_all s) (kept_transforms results).
Proof.
  intros results effects r I B L NoNull ND A.
  assert (A0 : signal_state st (ctx_signal context) = None).
  { destruct (signal_state st (ctx_signal context)) as [reason|] eqn:A0; [|reflexivity].
    rewrite (run_events_keep_abort (effects ++ during) st _ reason A0) in A.
    discriminate. }
  subst r. unfold _send. rewrite A0. unfold send_Response. rewrite I.
  subst results effects.
  destruct (call_postprocessors pps resp request context) as [effects results].
  cbn [fst snd] in *.
  unfold chain_transforms. rewrite (filter_transforms_no_null results NoNull).
  cbn [bind]. rewrite B, (reduce_kept_transforms _ results s L ND), A.
  cbn [thrown postprocessor_calls body_sent message].
  split; [reflexivity|]. split; [reflexivity|]. split; [reflexivity|].
  split; [apply chained_pipes|apply chained_read_all].
Qed.

(** Four postprocessors: a mark, a failure, a value that is no stream, a
    second mark. *)
Lemma transforms_are_chained_in_order_witness :
  let pps := [marking 1 "-a";
              {| pp_id := 2; pp_call := fun _ _ _ => ([], Throw boom) |};
              {| pp_id := 3; pp_call := fun _ _ _ => ([], Normal (VString "done")) |};
              marking 4 "-b"] in
  let results := snd (call_postprocessors pps ok_response (Some get_page) plain_context) in
  let r := _send demo_errors (VResponse ok_response) fresh_message pps plain_context
             (Some get_page) (initial_state None) [] in
  thrown r = None
  /\ postprocessor_calls r = map pp_id pps
  /\ body_sent r
     = Some (Some (chained (ctx_signal plain_context) (Source ["hello"; "world"] false)
                     (kept_transforms results)))
  /\ pipes (chained (ctx_signal plain_context) (Source ["hello"; "world"] false)
              (kept_transforms results))
     = pipes (Source ["hello"; "world"] false) ++ map ts_id (kept_transforms results)
  /\ read_all (chained (ctx_signal plain_context) (Source ["hello"; "world"] false)
                 (kept_transforms results))
     = transformed (read_all (Source ["hello"; "world"] false)) (kept_transforms results).
Proof.
  apply (transforms_are_chained_in_order demo_errors ok_response fresh_message
           [marking 1 "-a";
            {| pp_id := 2; pp_call := fun _ _ _ => ([], Throw boom) |};
            {| pp_id := 3; pp_call := fun _ _ _ => ([], Normal (VString "done")) |};
            marking 4 "-b"]
           plain_context (Some get_page) (initial_state None) []
           (Source ["hello"; "world"] false)); try reflexivity.
  - intros result [<-|[<-|[<-|[<-|[]]]]]; discriminate.
  - simpl. repeat constructor; simpl; intuition discriminate.
Defined.

(** What the two marks of the example make of the chunks. *)
Example marks_in_order :
  let pps := [marking 1 "-a";
              {| pp_id := 2; pp_call := fun _ _ _ => ([], Throw boom) |};
              {| pp_id := 3; pp_call := fun _ _ _ => ([], Normal (VString "done")) |};
              marking 4 "-b"] in
  transformed ["hello"; "world"]
    (kept_transforms (snd (call_postprocessors pps ok_response (Some get_page)
                             plain_context)))
    = ["hello-a-b"; "world-a-b"].
Proof. reflexivity. Qed.

(** ** Redirects, bare objects and [null] *)

(** X11. A handler that returns a [URL] answers with a redirect: the
    request is fulfilled with [Response.redirect(url)], and sending that
    response writes the status 302 and the [Location] header, calls no
    postprocessor, writes no body and ends the message. *)
Theorem returned_URL_is_sent_as_a_redirect (E : HTTPError_module) (f : handler)
    (specifier : string) (request : Request) (context : Context) (st : request_state)
    (href : string) (m : ServerResponse) (pps : list postprocessor)
    (request' : option Request) (st' : request_state) (during : list event) :
  let r := _send E (VResponse (Response_redirect href)) m pps context request' st' during in
  snd (h_call f request context) = Normal (VURL href) ->
  first_call (fst (h_call f request context)) = None ->
  settled st = false ->
  promise st = Pending ->
  signal_state st' (ctx_signal context) = None ->
  headersSent m = false ->
  promise (fst (call_handler f specifier request context st))
    = Fulfilled (VResponse (Response_redirect href))
  /\ thrown r = None
  /\ postprocessor_calls r = []
  /\ head_calls (message r) = head_calls m ++ [(302, Some "")]
  /\ header_calls (message r) = header_calls m ++ [("location", href)]
  /\ write_calls (message r) = write_calls m
  /\ end_calls (message r) = S (end_calls m).
Proof.
  intros r Hret Hcalls S P A H. split.
  - unfold call_handler. destruct (h_call f request context) as [effects result].
    cbn [fst snd] in *. subst result.
    destruct (run_events_first_call effects st S P) as [P1 S1].
    rewrite Hcalls in P1, S1. apply resolve_unsettled; assumption.
  - subst r. unfold _send. rewrite A. unfold send_Response.
    assert (I : _isImmutableResponse (Response_redirect href) = true) by reflexivity.
    rewrite I, A. cbn [thrown postprocessor_calls message].
    unfold stream_out, write_head. rewrite H. cbn. repeat split; reflexivity.
Qed.

Lemma returned_URL_is_sent_as_a_redirect_witness :
  let r := _send demo_errors (VResponse (Response_redirect "http://localhost:8080/new"))
             fresh_message [marking 1 "-a"] plain_context (Some get_page)
             (initial_state None) [] in
  promise (fst (call_handler redirecting_handler "/routes/page.js" get_page plain_context
                  (initial_state None)))
    = Fulfilled (VResponse (Response_redirect "http://localhost:8080/new"))
  /\ thrown r = None
  /\ postprocessor_calls r = []
  /\ head_calls (message r) = head_calls fresh_message ++ [(302, Some "")]
  /\ header_calls (message r)
     = header_calls fresh_message ++ [("location", "http://localhost:8080/new")]
  /\ write_calls (message r) = write_calls fresh_message
  /\ end_calls (message r) = S (end_calls fresh_message).
Proof.
  apply (returned_URL_is_sent_as_a_redirect demo_errors redirecting_handler
           "/routes/page.js" get_page plain_context (initial_state None)
           "http://localhost:8080/new" fresh_message [marking 1 "-a"] (Some get_page)
           (initial_state None) []); reflexivity.
Defined.

(** X12. A [URL] or an [Error] handed to [_send] as the outcome (passed to
    [context.resolve]) is neither redirected to nor reported: it is an
    object without [headers], [body], [status] or [statusText], so [_send]
    sends the response the defaults build, status 200 with no body. *)
Theorem resolved_URL_or_Error_is_sent_as_an_empty_200 (E : HTTPError_module)
    (v : jsval) (m : ServerResponse) (pps : list postprocessor) (context : Context)
    (request : option Request) (st : request_state) (during : list event) :
  is_URL_or_Error v = true ->
  _send E v m pps context request st during
    = _send E (VResponse empty_ok) m pps context request st during.
Proof.
  intro H. unfold _send.
  destruct (signal_state st (ctx_signal context)); [reflexivity|].
  destruct v; try discriminate; reflexivity.
Qed.

Lemma resolved_URL_or_Error_is_sent_as_an_empty_200_witness :
  _send demo_errors boom fresh_message [] plain_context (Some get_page)
    (initial_state None) []
    = _send demo_errors (VResponse empty_ok) fresh_message [] plain_context
        (Some get_page) (initial_state None) [].
Proof.
  apply (resolved_URL_or_Error_is_sent_as_an_empty_200 demo_errors boom fresh_message []
           plain_context (Some get_page) (initial_state None) []).
  reflexivity.
Defined.

(** X13. A request settled with [null] is answered as an unknown error:
    [_send] passes [typeof null === 'object'] and throws on the
    destructuring of line 147 before anything is written; the [catch] of
    line 301 logs that [TypeError] and sends the response of the
    [HTTPError] 'An unknown error occured' of status 500 that it is the
    cause of, without the request. *)
Theorem resolved_null_is_answered_as_an_unknown_error (X : collaborators)
    (cfg : config) (env : environment) (request : Request) (context : Context)
    (m : ServerResponse) (st : request_state) :
  let st1 := run_events (during_settlement env) st in
  let err := TypeError "Cannot destructure 'resp' as it is null." in
  promise st1 = Fulfilled VNull ->
  signal_state st1 (ctx_signal context) = None ->
  respond X cfg env request context m st
    = (_send (errors X) (HTTPError_response (errors X) "An unknown error occured" 500 err)
         m (responsePostprocessors cfg) context None st1
         (during_postprocessors_again env),
       if logger_is_function cfg then [Logged err] else []).
Proof.
  intros st1 err P A. unfold respond. fold st1. rewrite P.
  assert (S : _send (errors X) VNull m (responsePostprocessors cfg) context
                (Some request) st1 (during_postprocessors env)
              = {| thrown := Some err; message := m; state_after := st1;
                   postprocessor_calls := []; body_sent := None; stream_calls := [] |}).
  { unfold _send. rewrite A. reflexivity. }
  rewrite S. reflexivity.
Qed.

Lemma resolved_null_is_answered_as_an_unknown_error_witness :
  let st1 := run_events (during_settlement quiet) (resolve VNull (initial_state None)) in
  let err := TypeError "Cannot destructure 'resp' as it is null." in
  respond demo (serve_with [] [] [] false) quiet get_page plain_context fresh_message
    (resolve VNull (initial_state None))
    = (_send (errors demo)
         (HTTPError_response (errors demo) "An unknown error occured" 500 err)
         fresh_message (responsePostprocessors (serve_with [] [] [] false)) plain_context
         None st1 (during_postprocessors_again quiet),
       if logger_is_function (serve_with [] [] [] false) then [Logged err] else []).
Proof.
  apply (resolved_null_is_answered_as_an_unknown_error demo (serve_with [] [] [] false)
           quiet get_page plain_context fresh_message
           (resolve VNull (initial_state None))); reflexivity.
Defined.

(** * The command line *)

Lemma split_equals_nonempty s : split_equals s <> [].
Proof.
  destruct s as [|c rest]; simpl; [discriminate|].
  destruct (Ascii.eqb c "="%char); [discriminate|].
  destruct (split_equals rest); discriminate.
Qed.

(** Splitting distributes over joining with an equals sign. *)
Lemma split_equals_join k v :
  split_equals (k ++ "=" ++ v) = split_equals k ++ split_equals v.
Proof.
  induction k as [|c k IH]; [reflexivity|].
  simpl. destruct (Ascii.eqb c "="%char).
  - simpl in IH. rewrite IH. reflexivity.
  - simpl in IH. rewrite IH.
    destruct (split_equals k) as [|piece pieces] eqn:K; [|reflexivity].
    exfalso. exact (split_equals_nonempty k K).
Qed.

(** X14. The script reads [flag=value] and [flag value] alike: joining an
    argument and the next one with an equals sign does not change [args],
    so it changes no result of [getArg] or [hasArg]. *)
Theorem joined_and_separate_arguments_agree (node script : string)
    (before after : list string) (k v : string) :
  args_of (node :: script :: before ++ (k ++ "=" ++ v)%string :: after)
    = args_of (node :: script :: before ++ k :: v :: after).
Proof.
  unfold args_of. cbn [skipn]. rewrite !flat_map_app. cbn [flat_map].
  rewrite split_equals_join, <- app_assoc. reflexivity.
Qed.

Lemma findIndex_none test l :
  findIndex test l = None <-> forall x, In x l -> test x = false.
Proof.
  induction l as [|y l IH]; simpl.
  - split; [intros _ x []|reflexivity].
  - destruct (test y) eqn:T.
    + split; [discriminate|]. intro H. rewrite (H y) in T; [discriminate|now left].
    + destruct (findIndex test l) as [n|]; simpl.
      * split; [discriminate|]. intro H. exfalso.
        assert (N : Some n = None); [|discriminate].
        apply IH. intros x Hx. apply H. now right.
      * split; [|reflexivity]. intros _ x [<-|Hx]; [exact T|].
        apply IH; [reflexivity|exact Hx].
Qed.

Lemma findIndex_app test before x after :
  (forall y, In y before -> test y = false) ->
  test x = true ->
  findIndex test (before ++ x :: after) = Some (List.length before).
Proof.
  intros N T. induction before as [|y before IH]; simpl.
  - now rewrite T.
  - rewrite (N y) by now left. rewrite IH; [reflexivity|].
    intros z Hz. apply N. now right.
Qed.

Lemma includes_spec l s : includes l s = true <-> In s l.
Proof.
  unfold includes. rewrite existsb_exists. split.
  - intros (x & Hx & E). apply String.eqb_eq in E. now subst.
  - intro H. exists s. split; [exact H|apply String.eqb_refl].
Qed.

Lemma getArg_index args f d :
  getArg args f d
    = match findIndex (matches f) args with
      | None => d
      | Some i => match nth_error args (S i) with
                  | Some value => Some value
                  | None => d
                  end
      end.
Proof. destruct f; reflexivity. Qed.

Lemma hasArg_matches args f :
  hasArg args f = false <-> forall arg, In arg args -> matches f arg = false.
Proof.
  destruct f as [name|names]; simpl.
  - split.
    + intros H arg Hin. destruct (String.eqb name arg) eqn:E; [|reflexivity].
      apply String.eqb_eq in E. subst arg.
      apply includes_spec in Hin. congruence.
    + intro H. destruct (includes args name) eqn:I; [|reflexivity].
      apply includes_spec in I. rewrite <- (H name I). symmetry. apply String.eqb_refl.
  - split.
    + intros H arg Hin. destruct (includes names arg) eqn:I; [|reflexivity].
      apply includes_spec in I.
      assert (T : existsb (fun name => includes args name) names = true).
      { apply existsb_exists. exists arg. split; [exact I|now apply includes_spec]. }
      congruence.
    + intro H. destruct (existsb (fun name => includes args name) names) eqn:Ex;
        [|reflexivity].
      apply existsb_exists in Ex. destruct Ex as (name & Hn & I).
      apply includes_spec in I. rewrite <- (H name I). symmetry.
      now apply includes_spec.
Qed.

(** X15. A flag that is not among the arguments gives the default value:
    whenever [hasArg] says no, [getArg] returns [defaultValue]. *)
Theorem absent_flag_gives_the_default (args : list string) (f : flag)
    (defaultValue : option string) :
  hasArg args f = false ->
  getArg args f defaultValue = defaultValue.
Proof.
  intro H. rewrite getArg_index.
  pose proof (proj1 (hasArg_matches args f) H) as N.
  rewrite (proj2 (findIndex_none (matches f) args) N). reflexivity.
Qed.

Lemma absent_flag_gives_the_default_witness :
  hasArg (args_of demo_argv) (Flags ["-c"; "--config"]) = false
  /\ getArg (args_of demo_argv) (Flags ["-c"; "--config"]) (Some "server.config.js")
     = Some "server.config.js".
Proof.
  split; [reflexivity|].
  apply (absent_flag_gives_the_default (args_of demo_argv) (Flags ["-c"; "--config"])).
  reflexivity.
Defined.

(** X16. [getArg] reads the argument that follows the first occurrence of
    the flag, whatever that argument is and whatever comes later; when the
    first occurrence is the last argument, it returns the default value. *)
Theorem value_follows_the_first_occurrence (f : flag) (defaultValue : option string)
    (before : list string) (name : string) (rest : list string) :
  (forall arg, In arg before -> matches f arg = false) ->
  matches f name = true ->
  getArg (before ++ name :: rest) f defaultValue
    = match rest with
      | value :: _ => Some value
      | [] => defaultValue
      end.
Proof.
  intros N T. rewrite getArg_index, (findIndex_app _ _ _ _ N T).
  replace (nth_error (before ++ name :: rest) (S (List.length before)))
    with (nth_error rest 0).
  - destruct rest; reflexivity.
  - clear. induction before as [|y before IH]; [reflexivity|exact IH].
Qed.

Lemma value_follows_the_first_occurrence_witness :
  getArg (["--launch"] ++ "-p" :: ["--port"; "9000"]) (Flags ["-p"; "--port"]) (Some "8000")
    = Some "--port"
  /\ getArg (["-p"; "9000"] ++ "-h" :: []) (Flag "-h") None = None.
Proof.
  split.
  - apply (value_follows_the_first_occurrence (Flags ["-p"; "--port"]) (Some "8000")
             ["--launch"] "-p" ["--port"; "9000"]); [|reflexivity].
    intros arg [<-|[]]. reflexivity.
  - apply (value_follows_the_first_occurrence (Flag "-h") None ["-p"; "9000"] "-h" []);
      [|reflexivity].
    intros arg [<-|[<-|[]]]; reflexivity.
Defined.

Lemma split_equals_cut value more :
  no_equals value ->
  split_equals (value ++ "=" ++ more) = value :: split_equals more.
Proof. intro V. rewrite split_equals_join, V. reflexivity. Qed.

(** X17. A value given as [flag=value] is cut at its first equals sign:
    for the argument [flag=value=more], [getArg] returns [value] only. *)
Theorem value_is_cut_at_its_first_equals_sign (node script : string)
    (before after : list string) (f : flag) (defaultValue : option string)
    (name value more : string) :
  (forall arg, In arg (args_of (node :: script :: before)) -> matches f arg = false) ->
  no_equals name ->
  no_equals value ->
  matches f name = true ->
  getArg (args_of (node :: script :: before ++ (name ++ "=" ++ value ++ "=" ++ more)%string :: after))
         f defaultValue
    = Some value.
Proof.
  intros N K V T.
  unfold args_of in *. cbn [skipn] in *. rewrite flat_map_app. cbn [flat_map].
  rewrite split_equals_join, K, (split_equals_cut value more V).
  cbn [app].
  exact (value_follows_the_first_occurrence f defaultValue _ name _ N T).
Qed.

Lemma value_is_cut_at_its_first_equals_sign_witness :
  getArg (args_of ("node" :: "cli.js" :: ["-l"]
                   ++ ("--static" ++ "=" ++ "/srv/www" ++ "=" ++ "old")%string :: ["-h"]))
         (Flags ["-s"; "--static"]) None
    = Some "/srv/www".
Proof.
  apply (value_is_cut_at_its_first_equals_sign "node" "cli.js" ["-l"] ["-h"]
           (Flags ["-s"; "--static"]) None "--static" "/srv/www" "old");
    try reflexivity.
  intros arg [<-|[]]. reflexivity.
Defined.

(** X18. Without a [--config] flag the script either throws the
    [RangeError] of [AbortSignal.timeout], which it does exactly when a
    [-t] / [--timeout] flag is given with a value that is negative or above
    2^32 - 1, or builds an object whose [launch] property records the [-l]
    / [--launch] flag.  [serve] reads [open], not [launch]: its [open]
    parameter keeps the default [false] whatever the command line says.
    The [port] property is always a number (possibly [NaN]), so the default
    8080 of [serve] is never used: the port is [parseInt] of the value read
    for [-p] / [--port], with ['8000'] as the default. *)
Theorem launch_flag_does_not_reach_open (parseInt : string -> option Z)
    (args : list string) :
  hasArg args (Flags ["-c"; "--config"]) = false ->
  match config_of parseInt args with
  | Throw e =>
      hasArg args (Flags ["-t"; "--timeout"]) = true
      /\ out_of_range (timeout_value parseInt args) = true
      /\ exists message, e = RangeError message
  | Normal (ImportedConfig _) => False
  | Normal (InlineConfig properties) =>
      (hasArg args (Flags ["-t"; "--timeout"]) = true ->
       out_of_range (timeout_value parseInt args) = false)
      /\ property "launch" properties = OBoolean (hasArg args (Flags ["-l"; "--launch"]))
      /\ opt_open (serve_parameters properties) = OBoolean false
      /\ opt_port (serve_parameters properties)
         = ONumber match getArg args (Flags ["-p"; "--port"]) (Some "8000") with
                   | Some s => parseInt s
                   | None => None
                   end
  end.
Proof.
  intro H. unfold config_of, timeout_value, out_of_range. rewrite H.
  destruct (hasArg args (Flags ["-t"; "--timeout"])).
  - unfold AbortSignal_timeout.
    destruct ((_ <? 0) || (4294967295 <? _)); cbn [bind].
    + repeat split. eexists. reflexivity.
    + repeat split.
  - cbn [bind]. repeat split. discriminate.
Qed.

Lemma launch_flag_does_not_reach_open_witness :
  hasArg (args_of demo_argv) (Flags ["-l"; "--launch"]) = true
  /\ match config_of demo_parseInt (args_of demo_argv) with
     | Throw e =>
         hasArg (args_of demo_argv) (Flags ["-t"; "--timeout"]) = true
         /\ out_of_range (timeout_value demo_parseInt (args_of demo_argv)) = true
         /\ exists message, e = RangeError message
     | Normal (ImportedConfig _) => False
     | Normal (InlineConfig properties) =>
         (hasArg (args_of demo_argv) (Flags ["-t"; "--timeout"]) = true ->
          out_of_range (timeout_value demo_parseInt (args_of demo_argv)) = false)
         /\ property "launch" properties
            = OBoolean (hasArg (args_of demo_argv) (Flags ["-l"; "--launch"]))
         /\ opt_open (serve_parameters properties) = OBoolean false
         /\ opt_port (serve_parameters properties)
            = ONumber match getArg (args_of demo_argv) (Flags ["-p"; "--port"])
                              (Some "8000") with
                      | Some s => demo_parseInt s
                      | None => None
                      end
     end.
Proof.
  split; [reflexivity|].
  apply (launch_flag_does_not_reach_open demo_parseInt (args_of demo_argv)).
  reflexivity.
Defined.

(** A negative timeout stops the script before [serve] is called. *)
Example negative_timeout_throws :
  config_of (fun s => if String.eqb s "-5" then Some (-5) else demo_parseInt s)
    (args_of ["node"; "cli.js"; "-l"; "--timeout=-5"])
    = Throw (RangeError "The value of delay is out of range.").
Proof. reflexivity. Qed.

(** * Opening the browser and starting the server *)

(** X19. [_open] hands a command to [exec] only for a URL whose protocol is
    [http:] or [https:], given as a [URL] or as a string that parses to
    one, and the command is the opener of the platform followed by the
    quoted [href]; for every other argument it throws a [TypeError] and
    runs nothing. *)
Theorem only_web_URLs_are_opened (URL_parse : string -> option (string * string))
    (p : platform) (url : open_argument) :
  match _open URL_parse p url with
  | Normal command =>
      exists protocol href,
        (url = OpenURL protocol href
         \/ exists s, url = OpenString s /\ URL_parse s = Some (protocol, href))
        /\ (protocol = "http:" \/ protocol = "https:")%string
        /\ command = open_command p href
  | Throw e => exists message, e = TypeError message
  end.
Proof.
  assert (W : forall protocol,
    (String.eqb protocol "http:" || String.eqb protocol "https:")%bool = true ->
    (protocol = "http:" \/ protocol = "https:")%string).
  { intros protocol E. apply orb_true_iff in E.
    destruct E as [E|E]; apply String.eqb_eq in E; auto. }
  destruct url as [s|protocol href|]; simpl.
  - destruct (URL_parse s) as [[protocol href]|] eqn:P; simpl.
    + destruct (String.eqb protocol "http:" || String.eqb protocol "https:")%bool eqn:E.
      * exists protocol, href. split; [right; exists s; auto|].
        split; [exact (W protocol E)|reflexivity].
      * eexists; reflexivity.
    + eexists; reflexivity.
  - destruct (String.eqb protocol "http:" || String.eqb protocol "https:")%bool eqn:E.
    + exists protocol, href. split; [left; reflexivity|].
      split; [exact (W protocol E)|reflexivity].
    + eexists; reflexivity.
  - eexists; reflexivity.
Qed.

(** X20. A passed signal that has aborted before [serve] is called makes
    [serve] throw the reason of the signal: the server is closed as the
    last call made on it and the browser is not opened, even with [open]
    set.  A signal that aborts while the server binds has the server closed
    by its listener, and [serve] neither returns nor throws nor opens the
    browser.  Otherwise [serve] returns the URL without closing the server,
    opens the browser exactly when [open] is set, and returns the URL
    whatever [_open] does. *)
Theorem abort_during_startup_closes_the_server
    (URL_parse : string -> option (string * string))
    (URL_href : string -> string -> completion string)
    (p : platform) (hostname : string) (port : Z) (pathname : string)
    (open has_signal : bool) (aborted_before aborted_while_binding : option jsval)
    (url : string) :
  URL_href pathname ("http://" ++ hostname ++ ":" ++ decimal port)%string = Normal url ->
  let s := serve URL_parse URL_href p hostname port pathname open has_signal
             aborted_before aborted_while_binding in
  match (if has_signal then aborted_before else None),
        (if has_signal then aborted_while_binding else None) with
  | Some reason, _ =>
      returned s = Some (Throw reason)
      /\ opened s = None
      /\ last (server_calls s) OnceClose = Close
  | None, Some _ =>
      returned s = None
      /\ opened s = None
      /\ last (server_calls s) OnceClose = Close
  | None, None =>
      returned s = Some (Normal url)
      /\ ~ In Close (server_calls s)
      /\ opened s = if open then Some (_open URL_parse p (OpenString url)) else None
  end.
Proof.
  intros U s. subst s. unfold serve. rewrite U.
  destruct has_signal, aborted_before as [r1|], aborted_while_binding as [r2|];
    cbn; repeat split; try reflexivity;
    intro H; repeat (destruct H as [H|H]; [discriminate|]); exact H.
Qed.

(** Startup with a signal that has already aborted. *)
Lemma abort_during_startup_closes_the_server_witness :
  let s := serve demo_URL_parse demo_URL_href OtherPlatform "localhost" 8000 "/" true true
             (Some abort_error) None in
  returned s = Some (Throw abort_error)
  /\ opened s = None
  /\ last (server_calls s) OnceClose = Close.
Proof.
  exact (abort_during_startup_closes_the_server demo_URL_parse demo_URL_href
           OtherPlatform "localhost" 8000 "/" true true (Some abort_error) None
           "http://localhost:8000/" eq_refl).
Defined.
